(** * handball_expected_goals.py: a shallow embedding and its properties

    The script fetches the handball fixtures of a day, fetches the season
    statistics of both teams of every fixture, derives a goals-per-match
    figure per team and their sum per fixture, and writes the fixtures whose
    sum is known to a CSV and a JSON file.

    Layout of the development:
    - [exn], [result]: the Python exceptions the script can meet and the
      error monad that threads them;
    - binary64 floats on top of [SpecFloat]: true division of integers,
      addition, truthiness and the [:.2f] format;
    - [pyval]: decoded JSON values with the dynamic operations the script
      applies to them ([.get], subscripting, [in], iteration, truthiness,
      [<= 0] and [/]);
    - [get_json], [get_scheduled_events], [get_team_stats]: the network
      helper and the two parsers, over an explicit trace of requests;
    - [compute_expected_goals_for_matches]: the enrichment loop with its
      cache, over an explicit run state;
    - [export_to_csv], [export_to_json]: the rows and objects written;
    - the vocabulary of the statements and the example runs;
    - the properties, component by component. *)

From Stdlib Require Import ZArith String Ascii SpecFloat.
From stdpp Require Import gmap strings list pretty.

Set Warnings "-register-all".
Open Scope Z_scope.

(** ** Exceptions *)

(** The exceptions that the modelled code can raise. [requests] exceptions
    never leave [get_json] and are part of [Outcome] below. *)
Inductive exn :=
| KeyError
| TypeError
| AttributeError
| ZeroDivisionError
| OverflowError
| ValueError.

(** A computation that returns a value ([inr]) or raises ([inl]). *)
Definition result (A : Type) : Type := exn + A.

Definition raise {A : Type} (e : exn) : result A := inl e.

#[global] Instance result_ret : MRet result := λ A x, inr x.
#[global] Instance result_bind : MBind result :=
  λ A B f m, match m with inl e => inl e | inr x => f x end.
#[global] Instance result_fmap : FMap result :=
  λ A B f m, match m with inl e => inl e | inr x => inr (f x) end.

(** ** Floats *)

(** Python's [float] is IEEE 754 binary64: 53 bits of precision, exponent of
    the infinities 1024. *)
Definition prec : Z := 53.
Definition emax : Z := 1024.

Abbreviation float := spec_float.

(** The float nearest to [num / den] (ties to even): what a decimal literal
    such as [0.5] or [0.2] denotes. *)
Definition float_of_ratio (num den : positive) : float :=
  SFdiv prec emax (S754_finite false num 0) (S754_finite false den 0).

(** [a / b] on Python ints. CPython returns the correctly rounded quotient,
    signed zero when [a] is zero, and raises [ZeroDivisionError] for a zero
    divisor and [OverflowError] when the rounded quotient leaves the float
    range. *)
Definition int_truediv (a b : Z) : result float :=
  match b with
  | 0 => raise ZeroDivisionError
  | _ =>
      let negate := xorb (a <? 0) (b <? 0) in
      match a with
      | 0 => inr (S754_zero negate)
      | _ =>
          match SFdiv prec emax
                  (S754_finite (a <? 0) (Z.to_pos (Z.abs a)) 0)
                  (S754_finite (b <? 0) (Z.to_pos (Z.abs b)) 0) with
          | S754_infinity _ => raise OverflowError
          | q => inr q
          end
      end
  end.

(** [float(z)] for a Python int, as the arithmetic on mixed operands
    applies it: the nearest float (ties to even), [OverflowError] when the
    int is too large for one. *)
Definition float_of_int (z : Z) : result float :=
  match binary_normalize prec emax z 0 false with
  | S754_infinity _ => raise OverflowError
  | f => inr f
  end.

(** [x + y] on floats: IEEE addition, which never raises. *)
Definition float_add (x y : float) : float := SFadd prec emax x y.

(** [bool(x)] on a float: false exactly for the two zeros. *)
Definition float_truthy (x : float) : bool :=
  match x with
  | S754_zero _ => false
  | _ => true
  end.

(** The float is an ordinary number: neither infinite nor NaN. *)
Definition float_finite (x : float) : bool :=
  match x with
  | S754_zero _ | S754_finite _ _ _ => true
  | _ => false
  end.

(** The integer nearest to [m * 2^e], ties to even. *)
Definition round_half_even (m e : Z) : Z :=
  match e with
  | Zneg p =>
      let d := 2 ^ Zpos p in
      let q := m / d in
      let r := m mod d in
      match 2 * r ?= d with
      | Lt => q
      | Gt => q + 1
      | Eq => if Z.even q then q else q + 1
      end
  | _ => m * 2 ^ e
  end.

Definition digit (n : Z) : ascii := ascii_of_nat (48 + Z.to_nat n).

(** [f"{x:.2f}"]: the decimal expansion of [x] correctly rounded to two
    places (ties to even on the exact binary value), with the sign kept on
    results that round to zero. *)
Definition format_2f (x : float) : string :=
  match x with
  | S754_nan => "nan"
  | S754_infinity s => if s then "-inf" else "inf"
  | S754_zero s => if s then "-0.00" else "0.00"
  | S754_finite s m e =>
      let n := round_half_even (Zpos m * 100) e in
      (if s then "-" else "") +:+ pretty (n / 100) +:+ "."
        +:+ String (digit (n mod 100 / 10)) (String (digit (n mod 10)) "")
  end.

(** ** Decoded JSON values *)

(** What [response.json()] can return. Objects are dictionaries keyed by
    strings. *)
Inductive pyval :=
| PNone
| PBool (b : bool)
| PInt (z : Z)
| PFloat (f : float)
| PStr (s : string)
| PList (l : list pyval)
| PDict (d : gmap string pyval).

(** [bool(v)]. *)
Definition truthy (v : pyval) : bool :=
  match v with
  | PNone => false
  | PBool b => b
  | PInt z => negb (z =? 0)
  | PFloat f => float_truthy f
  | PStr s => negb (String.eqb s "")
  | PList l => match l with [] => false | _ => true end
  | PDict d => negb (Nat.eqb (size d) 0)
  end.

(** [obj.get(key, default)]: only dictionaries have a [get] attribute. *)
Definition py_get (obj : pyval) (key : string) (dflt : pyval) : result pyval :=
  match obj with
  | PDict d => inr (default dflt (d !! key))
  | _ => raise AttributeError
  end.

(** [obj[key]] with a string key: [KeyError] on a dictionary without the
    key; lists and strings want integer indices and the other values are not
    subscriptable, which are both [TypeError]. *)
Definition py_subscript (obj : pyval) (key : string) : result pyval :=
  match obj with
  | PDict d =>
      match d !! key with
      | Some v => inr v
      | None => raise KeyError
      end
  | _ => raise TypeError
  end.

Definition is_substring (needle s : string) : bool :=
  match String.index 0 needle s with
  | Some _ => true
  | None => false
  end.

Definition is_str (s : string) (v : pyval) : bool :=
  match v with
  | PStr s' => String.eqb s s'
  | _ => false
  end.

(** [needle in obj] for a string [needle]: key membership on a dictionary,
    element membership on a list, substring test on a string, [TypeError] on
    values that are not containers. *)
Definition py_contains (needle : string) (obj : pyval) : result bool :=
  match obj with
  | PDict d => inr (bool_decide (is_Some (d !! needle)))
  | PList l => inr (existsb (is_str needle) l)
  | PStr s => inr (is_substring needle s)
  | _ => raise TypeError
  end.

(** The values [for x in obj] runs through: the elements of a list, the keys
    of a dictionary, the characters of a string. *)
Definition py_iter (obj : pyval) : result (list pyval) :=
  match obj with
  | PList l => inr l
  | PDict d => inr ((λ kv, PStr kv.1) <$> map_to_list d)
  | PStr s => inr ((λ c, PStr (String c "")) <$> list_ascii_of_string s)
  | _ => raise TypeError
  end.

(** [a or b]: [b] is evaluated only when [a] is falsy. *)
Definition py_or (a b : result pyval) : result pyval :=
  v ← a; if truthy v then mret v else b.

(** The values that arithmetic and ordering accept: ints, bools ([bool] is
    a subclass of [int], with [True] being 1) and floats. *)
Inductive number :=
| NInt (z : Z)
| NFloat (f : float).

Definition as_number (v : pyval) : option number :=
  match v with
  | PBool b => Some (NInt (if b then 1 else 0))
  | PInt z => Some (NInt z)
  | PFloat f => Some (NFloat f)
  | _ => None
  end.

Definition to_float (n : number) : result float :=
  match n with
  | NInt z => float_of_int z
  | NFloat f => inr f
  end.

(** [v <= 0]: the comparison of a number with the int zero, which is false
    for NaN, and a [TypeError] for every value that is not a number. *)
Definition py_le_zero (v : pyval) : result bool :=
  match as_number v with
  | Some (NInt z) => inr (z <=? 0)
  | Some (NFloat f) => inr (SFleb f (S754_zero false))
  | None => raise TypeError
  end.

(** [a / b]: the quotient of two ints is [int_truediv]; when a float is
    involved both operands are converted to floats, a divisor equal to
    [0.0] raises [ZeroDivisionError] and the quotient is the IEEE one,
    infinities and NaN included; a value that is not a number is a
    [TypeError]. *)
Definition py_truediv (a b : pyval) : result float :=
  match as_number a, as_number b with
  | Some (NInt x), Some (NInt y) => int_truediv x y
  | Some x, Some y =>
      fx ← to_float x;
      fy ← to_float y;
      if float_truthy fy then mret (SFdiv prec emax fx fy)
      else raise ZeroDivisionError
  | _, _ => raise TypeError
  end.

(** ** Data classes *)

(** Python does not enforce the annotations of a dataclass: the parsers
    store whatever JSON value the response carries. The records are
    therefore parametric in what sits in the [int] and [str] fields. The
    parsers build them at [pyval]. The statistics that the enrichment engine
    and the exporters handle are those that [get_team_stats] built, so
    [TeamStats] stays at [pyval] there; the matches are an argument of the
    engine and are taken at the annotated types [Z] and [string]. *)
Record TeamStats (int str : Type) := mkTeamStats {
  team_id : int;
  name : str;
  season_id : int;
  goals_scored : int;
  matches_played : int
}.
Arguments mkTeamStats {int str}.
Arguments team_id {int str}.
Arguments name {int str}.
Arguments season_id {int str}.
Arguments goals_scored {int str}.
Arguments matches_played {int str}.

(** Both dataclasses have a [season_id]; the one of [MatchInfo] is
    [match_season_id] here. *)
Record MatchInfo (int str : Type) := mkMatchInfo {
  event_id : int;
  start_timestamp : int;
  home_team_id : int;
  home_team_name : str;
  away_team_id : int;
  away_team_name : str;
  tournament_name : str;
  match_season_id : int
}.
Arguments mkMatchInfo {int str}.
Arguments event_id {int str}.
Arguments start_timestamp {int str}.
Arguments home_team_id {int str}.
Arguments home_team_name {int str}.
Arguments away_team_id {int str}.
Arguments away_team_name {int str}.
Arguments tournament_name {int str}.
Arguments match_season_id {int str}.

(** [TeamStats.goals_per_match], on whatever the two fields hold. *)
Definition goals_per_match {str : Type} (self : TeamStats pyval str) : result (option float) :=
  py_le_zero (matches_played self) ≫= λ not_played : bool,
    if not_played then mret None
    else Some <$> py_truediv (goals_scored self) (matches_played self).

(** [match] is a keyword: the field is [match_]. *)
Record MatchWithExpectedGoals := mkMatchWithExpectedGoals {
  match_ : MatchInfo Z string;
  home_stats : option (TeamStats pyval pyval);
  away_stats : option (TeamStats pyval pyval);
  exp_goals_home : option float;
  exp_goals_away : option float;
  joint_expected_goals : option float
}.

(** ** Network helper *)

Definition BASE_URL : string := "https://api.sofascore.com/api/v1".
Definition SPORT : string := "handball".

(** What one [requests.get] can do: answer with a status code and a body
    that decodes to JSON or does not, or raise a [RequestException]
    (timeout, connection error). A body that does not decode makes
    [response.json()] raise [requests.JSONDecodeError], which is a
    [RequestException] too. *)
Inductive Outcome :=
| Response (status_code : Z) (json : option pyval)
| RequestException.

(** What the helper does to the outside world, oldest first. *)
Inductive Event :=
| EvGet (url : string) (params : option pyval)
| EvSleep (seconds : float).

(** The body that one pass through the [try] block returns, if it returns. *)
Definition attempt (o : Outcome) : option pyval :=
  match o with
  | Response status_code json => if status_code =? 200 then json else None
  | RequestException => None
  end.

(** [time.sleep(secs)] for a float. CPython turns the delay into a whole
    number of nanoseconds, rounding away from zero: NaN is a [ValueError], a
    number of nanoseconds outside the 64-bit range an [OverflowError], and a
    negative one a [ValueError]. Every other delay is slept and [None]
    returned. *)
Definition time_sleep (secs : float) : result unit :=
  match secs with
  | S754_nan => raise ValueError
  | _ =>
      let ns := SFmul prec emax secs (float_of_ratio 1000000000 1) in
      if SFleb (SFopp (float_of_ratio (2 ^ 63) 1)) ns
         && SFltb ns (float_of_ratio (2 ^ 63) 1)
      then if SFltb ns (S754_zero false) then raise ValueError else inr ()
      else raise OverflowError
  end.

Section Network.
(** The network: the outcome of the next request, which may depend on
    everything that happened before. *)
Variable http : list Event → string → option pyval → Outcome.

(** [n] passes of the [for attempt in range(retries)] loop. The [except]
    clause covers the request only: an exception of [time.sleep] leaves the
    function, after the request and without a pause. *)
Fixpoint get_json_loop (n : nat) (url : string) (params : option pyval)
    (sleep : float) (tr : list Event) : result pyval * list Event :=
  match n with
  | O => (mret PNone, tr)
  | S n' =>
      let tr1 := tr ++ [EvGet url params] in
      match attempt (http tr url params) with
      | Some body => (mret body, tr1)
      | None =>
          match time_sleep sleep with
          | inl e => (raise e, tr1)
          | inr _ => get_json_loop n' url params sleep (tr1 ++ [EvSleep sleep])
          end
      end
  end.

Definition get_json (url : string) (params : option pyval) (retries : Z)
    (sleep : float) (tr : list Event) : result pyval * list Event :=
  get_json_loop (Z.to_nat retries) url params sleep tr.

(** [get_json(url)] with the defaults [params=None, retries=3, sleep=0.5]. *)
Definition get_json_default (url : string) (tr : list Event) : result pyval * list Event :=
  get_json url None 3 (float_of_ratio 1 2) tr.
End Network.

(** ** Schedule retriever *)

(** The [MatchInfo(...)] call for one raw entry whose season identifier is
    [season_id]. Keyword arguments are evaluated left to right. *)
Definition match_info_fields (ev season_id : pyval) : result (MatchInfo pyval pyval) :=
  event_id ← py_subscript ev "id";
  start_timestamp ← py_get ev "startTimestamp" (PInt 0);
  home1 ← py_subscript ev "homeTeam";
  home_team_id ← py_subscript home1 "id";
  home2 ← py_subscript ev "homeTeam";
  home_team_name ← py_subscript home2 "name";
  away1 ← py_subscript ev "awayTeam";
  away_team_id ← py_subscript away1 "id";
  away2 ← py_subscript ev "awayTeam";
  away_team_name ← py_subscript away2 "name";
  tournament ← py_get ev "tournament" (PDict ∅);
  tournament_name ← py_get tournament "name" (PStr "Unknown");
  mret (mkMatchInfo event_id start_timestamp home_team_id home_team_name
          away_team_id away_team_name tournament_name season_id).

(** The body of the [try] block for one raw entry: [None] is the [continue]
    on a missing season identifier, [Some m] the record that is appended. *)
Definition match_info_of_event (ev : pyval) : result (option (MatchInfo pyval pyval)) :=
  season ← py_get ev "season" (PDict ∅);
  season_id ← py_get season "id" PNone;
  match season_id with
  | PNone => mret None
  | _ => Some <$> match_info_fields ev season_id
  end.

(** The [for ev in data["events"]] loop: [except KeyError: continue] skips
    the entry, any other exception leaves the function. *)
Fixpoint scheduled_events_loop (evs : list pyval) (matches : list (MatchInfo pyval pyval))
    : result (list (MatchInfo pyval pyval)) :=
  match evs with
  | [] => mret matches
  | ev :: rest =>
      match match_info_of_event ev with
      | inr (Some m) => scheduled_events_loop rest (matches ++ [m])
      | inr None => scheduled_events_loop rest matches
      | inl KeyError => scheduled_events_loop rest matches
      | inl e => raise e
      end
  end.

(** [get_scheduled_events] from the decoded response on. *)
Definition scheduled_events_of_json (data : pyval) : result (list (MatchInfo pyval pyval)) :=
  if negb (truthy data) then mret []
  else
    has_events ← py_contains "events" data;
    if negb has_events then mret []
    else
      events ← py_subscript data "events";
      evs ← py_iter events;
      scheduled_events_loop evs [].

(** ** Team statistics retriever *)

(** The [try] block of [get_team_stats]. *)
Definition team_stats_fields (team_id season_id : Z) (data : pyval)
    : result (TeamStats pyval pyval) :=
  stats ← py_get data "statistics" (PDict ∅);
  goals_scored ←
    py_or (py_get stats "goalsScored" PNone)
      (py_or (py_get stats "goalsFor" PNone)
         (py_or (py_get stats "scored" PNone) (mret (PInt 0))));
  matches_played ←
    py_or (py_get stats "matchesPlayed" PNone)
      (py_or (py_get stats "played" PNone)
         (py_or (py_get stats "games" PNone) (mret (PInt 0))));
  team ← py_get data "team" (PDict ∅);
  name ← py_get team "name" (PStr ("Team " +:+ pretty team_id));
  mret (mkTeamStats (PInt team_id) name (PInt season_id) goals_scored matches_played).

(** [get_team_stats] from the decoded response on: [except Exception] turns
    every exception into [None]. *)
Definition team_stats_of_json (team_id season_id : Z) (data : pyval)
    : option (TeamStats pyval pyval) :=
  if negb (truthy data) then None
  else
    match team_stats_fields team_id season_id data with
    | inr ts => Some ts
    | inl _ => None
    end.

Section Retrievers.
Variable http : list Event → string → option pyval → Outcome.

Definition get_scheduled_events (date_str : string) (tr : list Event)
    : result (list (MatchInfo pyval pyval)) * list Event :=
  let url := BASE_URL +:+ "/sport/" +:+ SPORT +:+ "/scheduled-events/" +:+ date_str in
  let '(data, tr') := get_json_default http url tr in
  (data ≫= scheduled_events_of_json, tr').

Definition get_team_stats (team_id season_id : Z) (tr : list Event)
    : result (option (TeamStats pyval pyval)) * list Event :=
  let url := BASE_URL +:+ "/team/" +:+ pretty team_id +:+ "/statistics/seasons/"
               +:+ pretty season_id in
  let '(data, tr') := get_json_default http url tr in
  (team_stats_of_json team_id season_id <$> data, tr').
End Retrievers.

(** ** Match enrichment engine *)

(** The engine only looks at what [get_team_stats] returns. The reply of
    each call is left open: any statistics record, whatever JSON values its
    fields hold, or [None]. The matches respect the annotations of
    [MatchInfo]. *)
Abbreviation TeamStatsT := (TeamStats pyval pyval).
Abbreviation MatchInfoT := (MatchInfo Z string).

(** What a run of the engine does to the outside world, oldest first. *)
Inductive Action :=
| CallTeamStats (team_id season_id : Z)
| Sleep (seconds : float).

(** The local variables of [compute_expected_goals_for_matches] and the
    actions performed so far. In [stats_cache], [Some None] is a key whose
    fetch found nothing and [None] a key that is not in the dictionary. *)
Record Run := mkRun {
  stats_cache : gmap (Z * Z) (option TeamStatsT);
  results : list MatchWithExpectedGoals;
  actions : list Action
}.

Definition Run_init : Run := mkRun ∅ [] [].

(** [home_stats.goals_per_match if home_stats else None]. *)
Definition expected_goals (stats : option TeamStatsT) : result (option float) :=
  match stats with
  | Some s => goals_per_match s
  | None => mret None
  end.

(** [exp_home + exp_away if exp_home is not None and exp_away is not None
    else None]. *)
Definition joint_goals (exp_home exp_away : option float) : option float :=
  match exp_home, exp_away with
  | Some h, Some a => Some (float_add h a)
  | _, _ => None
  end.

(** [stats_cache[key]]. *)
Definition cache_subscript (cache : gmap (Z * Z) (option TeamStatsT)) (key : Z * Z)
    : result (option TeamStatsT) :=
  match cache !! key with
  | Some v => mret v
  | None => raise KeyError
  end.

Section Enrichment.
(** What [get_team_stats(team_id, season_id)] returns, given the actions
    performed before the call. *)
Variable team_stats_reply : list Action → Z → Z → option TeamStatsT.

(** [if key not in stats_cache: stats_cache[key] = get_team_stats(...);
    time.sleep(0.2)]. *)
Definition ensure_cached (key : Z * Z) (st : Run) : Run :=
  match stats_cache st !! key with
  | Some _ => st
  | None =>
      let reply := team_stats_reply (actions st) key.1 key.2 in
      mkRun (<[key := reply]> (stats_cache st)) (results st)
        (actions st ++ [CallTeamStats key.1 key.2; Sleep (float_of_ratio 1 5)])
  end.

(** The rest of the loop body, once both keys are in the cache. *)
Definition enrich (m : MatchInfoT) (cache : gmap (Z * Z) (option TeamStatsT))
    : result MatchWithExpectedGoals :=
  let key_home := (home_team_id m, match_season_id m) in
  let key_away := (away_team_id m, match_season_id m) in
  home_stats ← cache_subscript cache key_home;
  away_stats ← cache_subscript cache key_away;
  exp_home ← expected_goals home_stats;
  exp_away ← expected_goals away_stats;
  let joint := joint_goals exp_home exp_away in
  mret (mkMatchWithExpectedGoals m home_stats away_stats exp_home exp_away joint).

(** The [for m in matches] loop. An exception ends the run in the state
    reached. *)
Fixpoint enrich_loop (matches : list MatchInfoT) (st : Run) : result unit * Run :=
  match matches with
  | [] => (mret (), st)
  | m :: rest =>
      let key_home := (home_team_id m, match_season_id m) in
      let key_away := (away_team_id m, match_season_id m) in
      let st1 := ensure_cached key_home st in
      let st2 := ensure_cached key_away st1 in
      match enrich m (stats_cache st2) with
      | inl e => (raise e, st2)
      | inr r =>
          enrich_loop rest (mkRun (stats_cache st2) (results st2 ++ [r]) (actions st2))
      end
  end.

(** The run from a given state, and the function itself, which starts from
    an empty cache and an empty list. *)
Definition compute_from (matches : list MatchInfoT) (st : Run)
    : result (list MatchWithExpectedGoals) * Run :=
  let '(r, st') := enrich_loop matches st in
  ((λ _, results st') <$> r, st').

Definition compute_expected_goals_for_matches (matches : list MatchInfoT)
    : result (list MatchWithExpectedGoals) * Run :=
  compute_from matches Run_init.
End Enrichment.

(** The keys for which [get_team_stats] was called, in call order. *)
Fixpoint fetched_keys (acts : list Action) : list (Z * Z) :=
  match acts with
  | [] => []
  | CallTeamStats t s :: rest => (t, s) :: fetched_keys rest
  | Sleep _ :: rest => fetched_keys rest
  end.

(** ** Exporters *)

Definition csv_header : list pyval :=
  [PStr "Home Team"; PStr "Away Team"; PStr "Tournament";
   PStr "Expected Goals Home"; PStr "Expected Goals Away"; PStr "Joint Expected Goals";
   PStr "Home Goals Scored"; PStr "Home Matches Played";
   PStr "Away Goals Scored"; PStr "Away Matches Played"].

(** [f"{x:.2f}" if x else ""]. *)
Definition format_if_truthy (x : option float) : string :=
  match x with
  | Some v => if float_truthy v then format_2f v else ""
  | None => ""
  end.

(** [stats.field if stats else ""]: an instance of a dataclass is always
    truthy. *)
Definition stat_cell (stats : option TeamStatsT) (field : TeamStatsT → pyval) : pyval :=
  match stats with
  | Some s => field s
  | None => PStr ""
  end.

(** The list handed to [writer.writerow] for a match whose joint value is
    [joint]. *)
Definition csv_row (m : MatchWithExpectedGoals) (joint : float) : list pyval :=
  [PStr (home_team_name (match_ m));
   PStr (away_team_name (match_ m));
   PStr (tournament_name (match_ m));
   PStr (format_if_truthy (exp_goals_home m));
   PStr (format_if_truthy (exp_goals_away m));
   PStr (format_2f joint);
   stat_cell (home_stats m) goals_scored;
   stat_cell (home_stats m) matches_played;
   stat_cell (away_stats m) goals_scored;
   stat_cell (away_stats m) matches_played].

(** The rows written by the [for m in matches] loop of [export_to_csv]. *)
Fixpoint csv_rows (matches : list MatchWithExpectedGoals) : list (list pyval) :=
  match matches with
  | [] => []
  | m :: rest =>
      match joint_expected_goals m with
      | None => csv_rows rest
      | Some joint => csv_row m joint :: csv_rows rest
      end
  end.

(** [export_to_csv]: the name of the file and the rows written to it. *)
Definition export_to_csv (matches : list MatchWithExpectedGoals) (date_str : string)
    : string * list (list pyval) :=
  ("handball_expected_goals_" +:+ date_str +:+ ".csv", csv_header :: csv_rows matches).

Definition float_or_none (x : option float) : pyval :=
  match x with
  | Some v => PFloat v
  | None => PNone
  end.

(** [stats.field if stats else None]. *)
Definition stat_json (stats : option TeamStatsT) (field : TeamStatsT → pyval) : pyval :=
  match stats with
  | Some s => field s
  | None => PNone
  end.

(** The dictionary appended to [output] for one match. *)
Definition json_object (m : MatchWithExpectedGoals) : pyval :=
  PDict (list_to_map
    [("home_team", PStr (home_team_name (match_ m)));
     ("away_team", PStr (away_team_name (match_ m)));
     ("tournament", PStr (tournament_name (match_ m)));
     ("exp_goals_home", float_or_none (exp_goals_home m));
     ("exp_goals_away", float_or_none (exp_goals_away m));
     ("joint_expected_goals", float_or_none (joint_expected_goals m));
     ("home_goals_scored", stat_json (home_stats m) goals_scored);
     ("home_matches_played", stat_json (home_stats m) matches_played);
     ("away_goals_scored", stat_json (away_stats m) goals_scored);
     ("away_matches_played", stat_json (away_stats m) matches_played)]).

(** The [output] list built by the loop of [export_to_json]. *)
Fixpoint json_output (matches : list MatchWithExpectedGoals) : list pyval :=
  match matches with
  | [] => []
  | m :: rest =>
      match joint_expected_goals m with
      | None => json_output rest
      | Some _ => json_object m :: json_output rest
      end
  end.

(** [export_to_json]: the name of the file and the array dumped to it. *)
Definition export_to_json (matches : list MatchWithExpectedGoals) (date_str : string)
    : string * list pyval :=
  ("handball_expected_goals.json", json_output matches).

(** ** Vocabulary of the statements *)

(** [x == 0.0]: true for both zeros, false for NaN. *)
Definition float_is_zero (x : float) : bool := SFeqb x (S754_zero false).

Definition is_digit (c : ascii) : bool :=
  (48 <=? nat_of_ascii c)%nat && (nat_of_ascii c <=? 57)%nat.

(** The string ends with a point and two decimal digits. *)
Definition two_decimals (s : string) : Prop :=
  ∃ pre d1 d2, s = pre +:+ "." +:+ String d1 (String d2 "") ∧ is_digit d1 ∧ is_digit d2.

(** The two keys under which a match looks its teams up. *)
Definition key_home (m : MatchInfoT) : Z * Z := (home_team_id m, match_season_id m).
Definition key_away (m : MatchInfoT) : Z * Z := (away_team_id m, match_season_id m).

(** An enriched match is consistent with a cache: its statistics are the
    entries of its two keys, its per-team values are the goals per match of
    these statistics, and its joint value is derived from the two. *)
Definition consistent (cache : gmap (Z * Z) (option TeamStatsT))
    (r : MatchWithExpectedGoals) : Prop :=
  cache !! key_home (match_ r) = Some (home_stats r) ∧
  cache !! key_away (match_ r) = Some (away_stats r) ∧
  expected_goals (home_stats r) = mret (exp_goals_home r) ∧
  expected_goals (away_stats r) = mret (exp_goals_away r) ∧
  joint_expected_goals r = joint_goals (exp_goals_home r) (exp_goals_away r).

(** The cache records the calls made: no key was fetched twice, and a key
    holds [v] exactly when some call for that key returned [v]. *)
Definition cache_records_calls (reply : list Action → Z → Z → option TeamStatsT)
    (st : Run) : Prop :=
  NoDup (fetched_keys (actions st)) ∧
  ∀ k v, stats_cache st !! k = Some v ↔
    ∃ i, actions st !! i = Some (CallTeamStats k.1 k.2) ∧
         v = reply (take i (actions st)) k.1 k.2.

(** The trace of [k] failed attempts: each request is followed by the
    delay. *)
Fixpoint failed_attempts (url : string) (params : option pyval) (sleep : float)
    (k : nat) : list Event :=
  match k with
  | O => []
  | S k' => EvGet url params :: EvSleep sleep :: failed_attempts url params sleep k'
  end.

(** The number of requests in a trace. *)
Fixpoint count_gets (tr : list Event) : nat :=
  match tr with
  | [] => 0
  | EvGet _ _ :: rest => S (count_gets rest)
  | EvSleep _ :: rest => count_gets rest
  end.


(** First-present-wins, in the words of the specification: the value of the
    first candidate field that the record carries, zero when it carries
    none of them. *)
Fixpoint first_present (stats : gmap string pyval) (candidates : list string) : pyval :=
  match candidates with
  | [] => PInt 0
  | c :: rest =>
      match stats !! c with
      | Some v => v
      | None => first_present stats rest
      end
  end.

(** First-truthy-wins: the value of the first candidate field that the
    record carries with a truthy value, zero when there is none. *)
Fixpoint first_truthy (stats : gmap string pyval) (candidates : list string) : pyval :=
  match candidates with
  | [] => PInt 0
  | c :: rest =>
      match stats !! c with
      | Some v => if truthy v then v else first_truthy stats rest
      | None => first_truthy stats rest
      end
  end.

Definition goals_scored_fields : list string := ["goalsScored"; "goalsFor"; "scored"].
Definition matches_played_fields : list string := ["matchesPlayed"; "played"; "games"].

(** Example responses. *)
Definition stats_zero_then_alias : pyval :=
  PDict {[ "statistics" := PDict (<["goalsScored" := PInt 0]> {[ "goalsFor" := PInt 7 ]}) ]}.

Definition stats_alias_only : pyval :=
  PDict {[ "statistics" :=
             PDict (<["goalsFor" := PInt 31]> {[ "matchesPlayed" := PInt 4 ]}) ]}.

Definition team_object (id : Z) (name : string) : pyval :=
  PDict (<["id" := PInt id]> {[ "name" := PStr name ]}).

Definition schedule_null_season : pyval :=
  PDict {[ "events" := PList [
    PDict (<["id" := PInt 1]> (<["season" := PNone]> (<["homeTeam" := team_object 10 "A"]>
             {[ "awayTeam" := team_object 11 "B" ]}))) ] ]}.

Definition schedule_null_home_team : pyval :=
  PDict {[ "events" := PList [
    PDict (<["id" := PInt 1]> (<["season" := PDict {[ "id" := PInt 5 ]}]>
             (<["homeTeam" := PNone]> {[ "awayTeam" := team_object 11 "B" ]}))) ] ]}.

(** Example runs: the scenario of two fixtures, A against B and C against D,
    where the statistics of D cannot be fetched. *)
Definition stats_A : TeamStatsT :=
  mkTeamStats (PInt 1) (PStr "A") (PInt 2024) (PInt 10) (PInt 5).
Definition stats_B : TeamStatsT :=
  mkTeamStats (PInt 2) (PStr "B") (PInt 2024) (PInt 8) (PInt 4).
Definition stats_C : TeamStatsT :=
  mkTeamStats (PInt 3) (PStr "C") (PInt 2024) (PInt 0) (PInt 6).

Definition scenario_reply (acts : list Action) (team_id season_id : Z) : option TeamStatsT :=
  if team_id =? 1 then Some stats_A
  else if team_id =? 2 then Some stats_B
  else if team_id =? 3 then Some stats_C
  else None.

Definition match_AB : MatchInfoT := mkMatchInfo 100 1700000000 1 "A" 2 "B" "Cup" 2024.
Definition match_CD : MatchInfoT := mkMatchInfo 101 1700003600 3 "C" 4 "D" "Cup" 2024.
Definition match_CA : MatchInfoT := mkMatchInfo 102 1700007200 3 "C" 1 "A" "Cup" 2024.

Definition scenario_run : result (list MatchWithExpectedGoals) * Run :=
  compute_expected_goals_for_matches scenario_reply [match_AB; match_CD; match_CA].

Definition enriched_AB : MatchWithExpectedGoals :=
  mkMatchWithExpectedGoals match_AB (Some stats_A) (Some stats_B)
    (Some (float_of_ratio 2 1)) (Some (float_of_ratio 2 1)) (Some (float_of_ratio 4 1)).

Definition enriched_CD : MatchWithExpectedGoals :=
  mkMatchWithExpectedGoals match_CD (Some stats_C) None (Some (S754_zero false)) None None.

Definition enriched_CA : MatchWithExpectedGoals :=
  mkMatchWithExpectedGoals match_CA (Some stats_C) (Some stats_A)
    (Some (S754_zero false)) (Some (float_of_ratio 2 1)) (Some (float_of_ratio 2 1)).



(** A response whose matches played is NaN, which [json.loads] accepts. *)
Definition stats_nan_matches : pyval :=
  PDict {[ "statistics" :=
             PDict (<["goalsScored" := PInt 10]> {[ "matchesPlayed" := PFloat S754_nan ]}) ]}.

(** [get_team_stats] on a network that answers every request with the same
    body. *)
Definition reply_of_json (data : pyval) (acts : list Action) (team_id season_id : Z)
    : option TeamStatsT :=
  team_stats_of_json team_id season_id data.

Definition nan_reply := reply_of_json stats_nan_matches.

(** The statistics and the record of the run on [nan_reply]. *)
Definition stats_nan (team_id : Z) : TeamStatsT :=
  mkTeamStats (PInt team_id) (PStr ("Team " +:+ pretty team_id)) (PInt 2024)
    (PInt 10) (PFloat S754_nan).

Definition enriched_nan : MatchWithExpectedGoals :=
  mkMatchWithExpectedGoals match_AB (Some (stats_nan 1)) (Some (stats_nan 2))
    (Some S754_nan) (Some S754_nan) (Some S754_nan).

(** A network that is down, and one that answers the third request. *)
Definition http_down (tr : list Event) (url : string) (params : option pyval) : Outcome :=
  RequestException.


(** ** Vocabulary of the further properties *)

(** The URL that [get_team_stats] and [get_scheduled_events] request. *)
Definition team_stats_url (team_id season_id : Z) : string :=
  BASE_URL +:+ "/team/" +:+ pretty team_id +:+ "/statistics/seasons/" +:+ pretty season_id.

Definition scheduled_events_url (date_str : string) : string :=
  BASE_URL +:+ "/sport/" +:+ SPORT +:+ "/scheduled-events/" +:+ date_str.

(** The field is missing from the object or holds an object. *)
Definition object_or_absent (d : gmap string pyval) (key : string) : bool :=
  match d !! key with
  | None => true
  | Some (PDict _) => true
  | Some _ => false
  end.

(** A raw schedule entry of the expected shape: an object whose season, home
    team, away team and tournament are objects where they are present. *)
Definition entry_shape_ok (ev : pyval) : bool :=
  match ev with
  | PDict d =>
      object_or_absent d "season" && object_or_absent d "homeTeam"
        && object_or_absent d "awayTeam" && object_or_absent d "tournament"
  | _ => false
  end.

(** The record that the schedule loop appends for an entry, if it appends
    one. *)
Definition kept_entry (ev : pyval) : option (MatchInfo pyval pyval) :=
  match match_info_of_event ev with
  | inr (Some m) => Some m
  | _ => None
  end.

(** The field [key] of a JSON object, if [obj] is an object that has it. *)
Definition json_field (obj : pyval) (key : string) : option pyval :=
  match obj with
  | PDict d => d !! key
  | _ => None
  end.

(** The record that a schedule entry stands for, read off the entry field
    by field: there is one when the entry has a season with an [id] that is
    not [null], an [id], and a home and an away team with [id] and [name].
    The start defaults to 0 and the tournament name to ["Unknown"]. *)
Definition entry_record (ev : pyval) : option (MatchInfo pyval pyval) :=
  season ← json_field ev "season";
  sid ← json_field season "id";
  eid ← json_field ev "id";
  home ← json_field ev "homeTeam";
  hid ← json_field home "id";
  hname ← json_field home "name";
  away ← json_field ev "awayTeam";
  aid ← json_field away "id";
  aname ← json_field away "name";
  match sid with
  | PNone => None
  | _ =>
      Some (mkMatchInfo eid (default (PInt 0) (json_field ev "startTimestamp"))
              hid hname aid aname
              (default (PStr "Unknown")
                 (json_field ev "tournament" ≫= λ t, json_field t "name"))
              sid)
  end.

(** What one cache miss does: the call and the pause that follows it. *)
Definition fetch_and_sleep (key : Z * Z) : list Action :=
  [CallTeamStats key.1 key.2; Sleep (float_of_ratio 1 5)].

(** The keys that a list of matches looks up, in the order of the loop. *)
Definition match_keys (ms : list MatchInfoT) : list (Z * Z) :=
  m ← ms; [key_home m; key_away m].

(** The statistics that an enriched match carries for a key. *)
Definition carries (r : MatchWithExpectedGoals) (key : Z * Z)
    (stats : option TeamStatsT) : Prop :=
  (key_home (match_ r) = key ∧ home_stats r = stats) ∨
  (key_away (match_ r) = key ∧ away_stats r = stats).

(** Example entries of a schedule. *)
Definition entry_full : pyval :=
  PDict (<["id" := PInt 1]> (<["season" := PDict {[ "id" := PInt 5 ]}]>
    (<["homeTeam" := team_object 10 "A"]> {[ "awayTeam" := team_object 11 "B" ]}))).

Definition entry_no_season : pyval :=
  PDict (<["id" := PInt 2]>
    (<["homeTeam" := team_object 12 "C"]> {[ "awayTeam" := team_object 13 "D" ]})).

Definition entry_no_away_name : pyval :=
  PDict (<["id" := PInt 3]> (<["season" := PDict {[ "id" := PInt 5 ]}]>
    (<["homeTeam" := team_object 14 "E"]> {[ "awayTeam" := PDict {[ "id" := PInt 15 ]} ]}))).

Definition schedule_mixed : pyval :=
  PDict {[ "events" := PList [entry_full; entry_no_season; entry_no_away_name] ]}.

(** The trace holds nothing but requests for [url] without parameters and
    pauses of half a second. *)
Definition only_requests (url : string) (tr : list Event) : Prop :=
  Forall (λ ev, ev = EvGet url None ∨ ev = EvSleep (float_of_ratio 1 2)) tr.

(** The record built from [entry_full]. *)
Definition record_full : MatchInfo pyval pyval :=
  mkMatchInfo (PInt 1) (PInt 0) (PInt 10) (PStr "A") (PInt 11) (PStr "B")
    (PStr "Unknown") (PInt 5).

(** The sign bit of a float is clear: a positive number or the positive
    zero. *)
Definition float_nonnegative (x : float) : bool :=
  match x with
  | S754_zero s | S754_finite s _ _ | S754_infinity s => negb s
  | S754_nan => false
  end.

(** A schedule whose second entry is not an object. *)
Definition schedule_with_stray_number : pyval :=
  PDict {[ "events" := PList [entry_full; PInt 7; entry_full] ]}.

(** A network that answers every request at once with [stats_alias_only]. *)
Definition http_alias (tr : list Event) (url : string) (params : option pyval) : Outcome :=
  Response 200 (Some stats_alias_only).


(** * Properties *)

(** ** Floats *)

Lemma iter_pos_invariant {A : Type} (P : A → Prop) (f : A → A) :
  (∀ x, P x → P (f x)) → ∀ p x, P x → P (SpecFloat.iter_pos f p x).
Proof.
  intros Hf. induction p as [p IH|p IH|]; intros x Hx; simpl; auto.
Qed.

Lemma shr_1_nonneg (mrs : shr_record) : 0 ≤ shr_m mrs → 0 ≤ shr_m (shr_1 mrs).
Proof.
  destruct mrs as [m r s]. simpl. destruct m as [|p|p]; [done | | lia].
  intros _. by destruct p.
Qed.

Lemma shr_fexp_nonneg (m e : Z) (l : location) :
  0 ≤ m → 0 ≤ shr_m (shr_fexp prec emax m e l).1.
Proof.
  intros Hm. unfold shr_fexp, shr.
  assert (0 ≤ shr_m (shr_record_of_loc m l)) as Hrec by (by destruct l as [|[]]).
  destruct (fexp prec emax (Zdigits2 m + e) - e) as [|p|p]; simpl; [done | | done].
  by apply (iter_pos_invariant (λ mrs, 0 ≤ shr_m mrs)); [apply shr_1_nonneg|].
Qed.

Lemma round_nearest_even_nonneg (m : Z) (l : location) :
  0 ≤ m → 0 ≤ round_nearest_even m l.
Proof. intros Hm. destruct l as [|[]]; simpl; try destruct (Z.even m); lia. Qed.

Lemma binary_round_aux_not_nan (sx : bool) (mx ex : Z) (lx : location) :
  0 ≤ mx → binary_round_aux prec emax sx mx ex lx ≠ S754_nan.
Proof.
  intros Hmx. unfold binary_round_aux.
  pose proof (shr_fexp_nonneg mx ex lx Hmx) as H1.
  destruct (shr_fexp prec emax mx ex lx) as [mrs' e']. simpl in H1.
  pose proof (shr_fexp_nonneg _ e' loc_Exact
                (round_nearest_even_nonneg _ (loc_of_shr_record mrs') H1)) as H2.
  destruct (shr_fexp prec emax _ e' loc_Exact) as [mrs'' e'']. simpl in H2.
  destruct (shr_m mrs'') as [|p|p]; [done | | lia].
  by destruct (e'' <=? emax - prec).
Qed.

Lemma SFdiv_finite_not_nan (sx sy : bool) (mx my : positive) (ex ey : Z) :
  SFdiv prec emax (S754_finite sx mx ex) (S754_finite sy my ey) ≠ S754_nan.
Proof.
  simpl. unfold SFdiv_core_binary.
  set (m' := match _ - _ - _ with Z0 => _ | Zpos _ => _ | Zneg _ => _ end).
  assert (0 ≤ m') as Hm'.
  { subst m'. destruct (_ - _ - _) as [|p|p]; [lia | | lia].
    apply Z.shiftl_nonneg. lia. }
  pose proof (Z_div_mod m' (Z.pos my) ltac:(lia)) as Hdiv.
  destruct (Z.div_eucl m' (Z.pos my)) as [q r].
  apply binary_round_aux_not_nan. nia.
Qed.

(** A quotient of integers that is returned is an ordinary number. *)
Lemma int_truediv_finite (a b : Z) (q : float) :
  int_truediv a b = mret q → float_finite q.
Proof.
  unfold int_truediv, mret, result_ret, raise.
  destruct b as [|pb|pb]; [done | |];
    (destruct a as [|pa|pa]; [by intros [= <-] | |]); simpl Z.abs; simpl Z.to_pos;
    match goal with |- context [SFdiv _ _ (S754_finite ?sx ?mx _) (S754_finite ?sy ?my _)] =>
      pose proof (SFdiv_finite_not_nan sx sy mx my 0 0) as Hnan;
      destruct (SFdiv prec emax (S754_finite sx mx 0) (S754_finite sy my 0))
    end; try done; by intros [= <-].
Qed.

(** ** The float of a Python int *)

Lemma digits2_pos_iter_xO (m d : positive) :
  Z.pos (digits2_pos (Pos.iter xO m d)) = Z.pos (digits2_pos m) + Z.pos d.
Proof.
  induction d as [|d IH] using Pos.peano_ind.
  - simpl. lia.
  - rewrite Pos.iter_succ. simpl. lia.
Qed.

Lemma digits2_pos_succ (q : positive) :
  Z.pos (digits2_pos (Pos.succ q)) = Z.pos (digits2_pos q) ∨
  Z.pos (digits2_pos (Pos.succ q)) = Z.pos (digits2_pos q) + 1.
Proof.
  induction q as [q IH|q IH|]; simpl.
  - destruct IH as [IH | IH]; [left | right]; lia.
  - left. lia.
  - right. lia.
Qed.

Lemma shr_1_pos (mrs : shr_record) (q : positive) :
  shr_m mrs = Z.pos q → 1 < Z.pos (digits2_pos q) →
  ∃ q', shr_m (shr_1 mrs) = Z.pos q' ∧ Z.pos (digits2_pos q') + 1 = Z.pos (digits2_pos q).
Proof.
  destruct mrs as [m r s]. simpl. intros -> Hq.
  destruct q as [q|q|]; simpl in *; [| |lia]; exists q; split; try done; lia.
Qed.

Lemma iter_shr_1_pos (p : positive) (mrs : shr_record) (q : positive) :
  shr_m mrs = Z.pos q → Z.pos p < Z.pos (digits2_pos q) →
  ∃ q', shr_m (SpecFloat.iter_pos shr_1 p mrs) = Z.pos q' ∧
        Z.pos (digits2_pos q') + Z.pos p = Z.pos (digits2_pos q).
Proof.
  revert mrs q. induction p as [p IH|p IH|]; intros mrs q Hm Hp; simpl.
  - destruct (shr_1_pos mrs q Hm ltac:(lia)) as (q1 & Hq1 & Hd1).
    destruct (IH _ q1 Hq1 ltac:(lia)) as (q2 & Hq2 & Hd2).
    destruct (IH _ q2 Hq2 ltac:(lia)) as (q3 & Hq3 & Hd3).
    exists q3. split; [done | lia].
  - destruct (IH _ q Hm ltac:(lia)) as (q2 & Hq2 & Hd2).
    destruct (IH _ q2 Hq2 ltac:(lia)) as (q3 & Hq3 & Hd3).
    exists q3. split; [done | lia].
  - destruct (shr_1_pos mrs q Hm ltac:(lia)) as (q1 & Hq1 & Hd1).
    exists q1. split; [done | lia].
Qed.

Lemma shr_record_of_loc_m (m : Z) (l : location) : shr_m (shr_record_of_loc m l) = m.
Proof. by destruct l as [|[]]. Qed.

(** What [shr_fexp] does to a positive mantissa that is not below the
    smallest exponent: the mantissa stays positive, and is then at its
    exponent or above it. *)
Lemma shr_fexp_pos (q : positive) (e : Z) (l : location) :
  3 - emax - prec < Z.pos (digits2_pos q) + e →
  ∃ q', shr_m (shr_fexp prec emax (Z.pos q) e l).1 = Z.pos q' ∧
    fexp prec emax (Z.pos (digits2_pos q') + (shr_fexp prec emax (Z.pos q) e l).2)
      ≤ (shr_fexp prec emax (Z.pos q) e l).2 ∧
    3 - emax - prec < Z.pos (digits2_pos q') + (shr_fexp prec emax (Z.pos q) e l).2.
Proof.
  intros He. unfold shr_fexp, shr. cbn [Zdigits2].
  destruct (fexp prec emax (Z.pos (digits2_pos q) + e) - e) as [|p|p] eqn:Hn; cbn [fst snd].
  - exists q. rewrite shr_record_of_loc_m. split; [done|]. split; lia.
  - destruct (iter_shr_1_pos p (shr_record_of_loc (Z.pos q) l) q) as (q' & Hq' & Hd).
    + apply shr_record_of_loc_m.
    + revert Hn. unfold fexp, SpecFloat.emin, prec, emax in *. lia.
    + exists q'. split; [done|].
      replace (Z.pos (digits2_pos q') + (e + Z.pos p)) with (Z.pos (digits2_pos q) + e) by lia.
      split; lia.
  - exists q. rewrite shr_record_of_loc_m. split; [done|]. split; lia.
Qed.

Lemma round_nearest_even_pos (q : positive) (l : location) :
  ∃ q2, round_nearest_even (Z.pos q) l = Z.pos q2 ∧
    (Z.pos (digits2_pos q2) = Z.pos (digits2_pos q) ∨
     Z.pos (digits2_pos q2) = Z.pos (digits2_pos q) + 1).
Proof.
  assert (Z.pos q + 1 = Z.pos (Pos.succ q)) as Hsucc by lia.
  destruct l as [|[]]; cbn [round_nearest_even]; rewrite ?Hsucc;
    try destruct (Z.even (Z.pos q));
    first [ exists q; split; [reflexivity | left; reflexivity]
          | exists (Pos.succ q); split; [reflexivity | apply digits2_pos_succ] ].
Qed.

(** Rounding a positive mantissa that is not below the smallest exponent
    never gives zero. *)
Lemma binary_round_aux_nonzero (sx : bool) (q : positive) (ex : Z) (lx : location) :
  3 - emax - prec < Z.pos (digits2_pos q) + ex →
  float_truthy (binary_round_aux prec emax sx (Z.pos q) ex lx) = true.
Proof.
  intros He. unfold binary_round_aux.
  destruct (shr_fexp_pos q ex lx He) as (q1 & Hq1 & Hcan & He1).
  destruct (shr_fexp prec emax (Z.pos q) ex lx) as [mrs' e']. cbn [fst snd] in *.
  rewrite Hq1.
  destruct (round_nearest_even_pos q1 (loc_of_shr_record mrs')) as (q2 & -> & Hd2).
  assert (3 - emax - prec < Z.pos (digits2_pos q2) + e') as He2 by lia.
  destruct (shr_fexp_pos q2 e' loc_Exact He2) as (q3 & Hq3 & _).
  destruct (shr_fexp prec emax (Z.pos q2) e' loc_Exact) as [mrs'' e'']. cbn [fst snd] in *.
  rewrite Hq3. by destruct (e'' <=? emax - prec).
Qed.

Lemma binary_normalize_nonzero (z : Z) :
  z ≠ 0 → float_truthy (binary_normalize prec emax z 0 false) = true.
Proof.
  assert (∀ s m, float_truthy (binary_round prec emax s m 0) = true) as Hround.
  { intros s m. unfold binary_round, shl_align.
    destruct (fexp prec emax (Z.pos (digits2_pos m) + 0) - 0) as [|d|d] eqn:Hd.
    - apply binary_round_aux_nonzero. unfold prec, emax. lia.
    - apply binary_round_aux_nonzero. unfold prec, emax. lia.
    - apply binary_round_aux_nonzero. rewrite digits2_pos_iter_xO.
      revert Hd. unfold fexp, SpecFloat.emin, prec, emax. lia. }
  destruct z as [|m|m]; [done | intros _; apply Hround..].
Qed.

(** ** Goals per match *)

Lemma int_truediv_nonzero (a b : Z) : b ≠ 0 → int_truediv a b ≠ raise ZeroDivisionError.
Proof.
  intros Hb. unfold int_truediv.
  destruct b; [done | |]; destruct a; try discriminate;
    match goal with |- context [SFdiv ?p ?e ?x ?y] => destruct (SFdiv p e x y) end;
    discriminate.
Qed.

Lemma float_of_int_raises (z : Z) (e : exn) : float_of_int z = raise e → e = OverflowError.
Proof.
  unfold float_of_int, raise. destruct (binary_normalize prec emax z 0 false); try done.
  by intros [= <-].
Qed.

Lemma to_float_raises (n : number) (e : exn) : to_float n = raise e → e = OverflowError.
Proof. destruct n as [z|f]; [apply float_of_int_raises | done]. Qed.

Lemma py_le_zero_raises (v : pyval) (e : exn) : py_le_zero v = raise e → e = TypeError.
Proof.
  unfold py_le_zero, raise. destruct (as_number v) as [[z|f]|]; try done. by intros [= <-].
Qed.

(** A number that is not [<= 0] is not zero, also once it is converted to
    a float. *)
Lemma py_le_zero_nonzero (v : pyval) (n : number) (f : float) :
  py_le_zero v = mret false → as_number v = Some n → to_float n = inr f →
  float_truthy f = true.
Proof.
  unfold py_le_zero. intros Hle Hn. rewrite Hn in Hle. destruct n as [z|f']; simpl.
  - injection Hle as Hle. apply Z.leb_gt in Hle.
    pose proof (binary_normalize_nonzero z ltac:(lia)) as Hnz.
    unfold float_of_int. destruct (binary_normalize prec emax z 0 false); try done;
      by intros [= <-].
  - injection Hle as Hle. intros [= <-]. by destruct f' as [[]|[]| |[] m e].
Qed.

Lemma py_truediv_number (a b : pyval) (v : float) :
  py_truediv a b = mret v → is_Some (as_number a) ∧ is_Some (as_number b).
Proof.
  unfold py_truediv.
  destruct (as_number a) as [[x|x]|], (as_number b) as [[y|y]|]; try done; eauto.
Qed.

(** The division of [goals_per_match] is never a division by zero. *)
Lemma py_truediv_played (a b : pyval) :
  py_le_zero b = mret false → py_truediv a b ≠ raise ZeroDivisionError.
Proof.
  intros Hle. unfold py_truediv.
  destruct (as_number a) as [x|] eqn:Ha; [|by destruct (as_number b) as [[]|]].
  destruct (as_number b) as [y|] eqn:Hb; [|by destruct x].
  assert ((fx ← to_float x; fy ← to_float y;
           if float_truthy fy then mret (SFdiv prec emax fx fy)
           else raise ZeroDivisionError) ≠ raise ZeroDivisionError) as Hmixed.
  { destruct (to_float x) as [e|fx] eqn:Hx.
    { apply to_float_raises in Hx as ->. done. }
    destruct (to_float y) as [e|fy] eqn:Hfy.
    { apply to_float_raises in Hfy as ->. done. }
    simpl. by rewrite (py_le_zero_nonzero b y fy Hle Hb Hfy). }
  destruct x as [x|x], y as [y|y]; try exact Hmixed.
  apply int_truediv_nonzero. unfold py_le_zero in Hle. rewrite Hb in Hle.
  injection Hle as Hle. apply Z.leb_gt in Hle. lia.
Qed.

(** C2: [goals_per_match] is [None] when [matches_played <= 0], and is the
    value of [goals_scored / matches_played] when [matches_played] is a
    number that is not [<= 0], so in particular when it is [> 0]: the
    quotient itself, with nothing done to it. The division is then never a
    division by zero. For statistics whose two fields are ints, as the
    annotations say, the test is the one on integers and the quotient the
    correctly rounded quotient of the two ints. *)
Theorem goals_per_match_spec {str : Type} (ts : TeamStats pyval str) :
  (py_le_zero (matches_played ts) = mret true → goals_per_match ts = mret None) ∧
  (py_le_zero (matches_played ts) = mret false →
     goals_per_match ts = Some <$> py_truediv (goals_scored ts) (matches_played ts) ∧
     py_truediv (goals_scored ts) (matches_played ts) ≠ raise ZeroDivisionError) ∧
  (∀ gs mp, goals_scored ts = PInt gs → matches_played ts = PInt mp →
     (mp ≤ 0 → goals_per_match ts = mret None) ∧
     (0 < mp →
        goals_per_match ts = Some <$> int_truediv gs mp ∧
        int_truediv gs mp ≠ raise ZeroDivisionError)).
Proof.
  unfold goals_per_match. split_and!.
  - by intros ->.
  - intros Hle. split; [by rewrite Hle | by apply py_truediv_played].
  - intros gs mp -> ->. split.
    + intros H. apply Z.leb_le in H. unfold py_le_zero. simpl. by rewrite H.
    + intros H. split.
      * apply Z.leb_gt in H. unfold py_le_zero. simpl. by rewrite H.
      * apply int_truediv_nonzero. lia.
Qed.

Lemma goals_per_match_spec_witness :
  goals_per_match (mkTeamStats (PInt 7) (PStr "A") (PInt 2024) (PInt 10) (PInt 0))
    = mret None ∧
  goals_per_match (mkTeamStats (PInt 7) (PStr "A") (PInt 2024) (PInt 10) (PInt 5))
    = mret (Some (float_of_ratio 2 1)).
Proof.
  split.
  - apply (proj1 (proj2 (proj2 (goals_per_match_spec
             (mkTeamStats (PInt 7) (PStr "A") (PInt 2024) (PInt 10) (PInt 0))))
             10 0 eq_refl eq_refl)).
    lia.
  - rewrite (proj1 (proj2 (proj2 (proj2 (goals_per_match_spec
               (mkTeamStats (PInt 7) (PStr "A") (PInt 2024) (PInt 10) (PInt 5))))
               10 5 eq_refl eq_refl) ltac:(lia))).
    vm_compute. reflexivity.
Defined.

(** ** Exporters *)

Lemma csv_rows_omap (ms : list MatchWithExpectedGoals) :
  csv_rows ms = omap (λ m, csv_row m <$> joint_expected_goals m) ms.
Proof.
  induction ms as [|m ms IH]; [done|].
  simpl. destruct (joint_expected_goals m); simpl; by rewrite IH.
Qed.

Lemma json_output_filter (ms : list MatchWithExpectedGoals) :
  json_output ms = json_object <$> filter (λ m, is_Some (joint_expected_goals m)) ms.
Proof.
  induction ms as [|m ms IH]; [done|].
  rewrite filter_cons. simpl. destruct (joint_expected_goals m) as [j|] eqn:Hj.
  - rewrite decide_True by eauto. simpl. by rewrite IH.
  - rewrite decide_False by (intros [? ?]; discriminate). done.
Qed.

Lemma elem_of_csv_rows (ms : list MatchWithExpectedGoals) (row : list pyval) :
  row ∈ csv_rows ms ↔
  ∃ m j, m ∈ ms ∧ joint_expected_goals m = Some j ∧ row = csv_row m j.
Proof.
  rewrite csv_rows_omap, list_elem_of_omap. split.
  - intros (m & Hm & Hrow). destruct (joint_expected_goals m) as [j|] eqn:Hj; [|done].
    simpl in Hrow. exists m, j. naive_solver.
  - intros (m & j & Hm & Hj & ->). exists m. rewrite Hj. done.
Qed.

Lemma elem_of_json_output (ms : list MatchWithExpectedGoals) (obj : pyval) :
  obj ∈ json_output ms ↔
  ∃ m, m ∈ ms ∧ is_Some (joint_expected_goals m) ∧ obj = json_object m.
Proof.
  rewrite json_output_filter, list_elem_of_fmap. split.
  - intros (m & -> & [Hj Hm]%list_elem_of_filter). eauto.
  - intros (m & Hm & Hj & ->). exists m. split; [done|].
    apply list_elem_of_filter. done.
Qed.

(** C3: the CSV exporter writes, after the header, one row for each match
    whose joint value is defined and none for the others, and the JSON
    exporter dumps one object for each such match and none for the others,
    both in the order of the input. Every row and every object therefore
    comes from a match of the input whose joint value is defined. *)
Theorem exports_only_defined_joint (ms : list MatchWithExpectedGoals) (date_str : string) :
  (export_to_csv ms date_str).2
    = csv_header :: omap (λ m, csv_row m <$> joint_expected_goals m) ms ∧
  (export_to_json ms date_str).2
    = json_object <$> filter (λ m, is_Some (joint_expected_goals m)) ms ∧
  (∀ row, row ∈ csv_rows ms →
     ∃ m j, m ∈ ms ∧ joint_expected_goals m = Some j ∧ row = csv_row m j) ∧
  (∀ obj, obj ∈ json_output ms →
     ∃ m, m ∈ ms ∧ is_Some (joint_expected_goals m) ∧ obj = json_object m) ∧
  length (csv_rows ms) = length (filter (λ m, is_Some (joint_expected_goals m)) ms) ∧
  length (json_output ms) = length (filter (λ m, is_Some (joint_expected_goals m)) ms).
Proof.
  split_and!.
  - simpl. by rewrite csv_rows_omap.
  - simpl. apply json_output_filter.
  - intros row. apply elem_of_csv_rows.
  - intros obj. apply elem_of_json_output.
  - induction ms as [|m ms IH]; [done|].
    rewrite filter_cons. simpl. destruct (joint_expected_goals m) eqn:Hj.
    + rewrite decide_True by eauto. simpl. by rewrite IH.
    + rewrite decide_False by (intros [? ?]; discriminate). done.
  - rewrite json_output_filter. apply length_fmap.
Qed.

Lemma float_truthy_is_zero (x : float) : float_truthy x = negb (float_is_zero x).
Proof. destruct x as [s|s| |s m e]; try destruct s; reflexivity. Qed.

Lemma is_digit_digit (k : Z) : 0 ≤ k < 10 → is_digit (digit k).
Proof.
  intros Hk.
  assert (k = 0 ∨ k = 1 ∨ k = 2 ∨ k = 3 ∨ k = 4 ∨ k = 5 ∨ k = 6 ∨ k = 7 ∨ k = 8 ∨ k = 9)
    as Hcases by lia.
  repeat (destruct Hcases as [-> | Hcases]; [done|]). by subst.
Qed.

Lemma string_app_assoc (s1 s2 s3 : string) : (s1 +:+ s2) +:+ s3 = s1 +:+ s2 +:+ s3.
Proof.
  induction s1 as [|c s1 IH]; [done|].
  change (String c ((s1 +:+ s2) +:+ s3) = String c (s1 +:+ s2 +:+ s3)).
  by rewrite IH.
Qed.

Lemma format_2f_two_decimals (x : float) : float_finite x → two_decimals (format_2f x).
Proof.
  destruct x as [s|s| |s m e]; simpl; try done; intros _.
  - destruct s; [exists "-0" | exists "0"]; exists "0"%char, "0"%char; done.
  - set (n := round_half_even (Z.pos m * 100) e).
    exists ((if s then "-" else "") +:+ pretty (n / 100)),
      (digit (n mod 100 / 10)), (digit (n mod 10)).
    split_and!.
    + by rewrite string_app_assoc.
    + apply is_digit_digit.
      pose proof (Z.mod_pos_bound n 100 ltac:(lia)). split.
      * apply Z.div_pos; lia.
      * apply Z.div_lt_upper_bound; lia.
    + apply is_digit_digit. apply Z.mod_pos_bound. lia.
Qed.

(** C9: in every row that the CSV exporter writes, a per-team expected-goals
    value equal to [0.0] gives the empty cell (where [:.2f] would give
    ["0.00"]), and every other defined value [v] gives [f"{v:.2f}"], which
    for an ordinary number ends with a point and two digits. *)
Theorem csv_zero_is_empty_cell (ms : list MatchWithExpectedGoals) (row : list pyval) :
  row ∈ csv_rows ms →
  ∃ m j, m ∈ ms ∧ joint_expected_goals m = Some j ∧ row = csv_row m j ∧
    (∀ v, exp_goals_home m = Some v →
       if float_is_zero v then row !! 3%nat = Some (PStr "")
       else row !! 3%nat = Some (PStr (format_2f v)) ∧
            (float_finite v → two_decimals (format_2f v))) ∧
    (∀ v, exp_goals_away m = Some v →
       if float_is_zero v then row !! 4%nat = Some (PStr "")
       else row !! 4%nat = Some (PStr (format_2f v)) ∧
            (float_finite v → two_decimals (format_2f v))) ∧
    format_2f (S754_zero false) = "0.00".
Proof.
  intros (m & j & Hm & Hj & ->)%elem_of_csv_rows.
  exists m, j. split_and!; try done.
  - intros v Hv. simpl. rewrite Hv. simpl. rewrite float_truthy_is_zero.
    destruct (float_is_zero v); simpl; [done|].
    split; [done | apply format_2f_two_decimals].
  - intros v Hv. simpl. rewrite Hv. simpl. rewrite float_truthy_is_zero.
    destruct (float_is_zero v); simpl; [done|].
    split; [done | apply format_2f_two_decimals].
Qed.

Lemma csv_zero_is_empty_cell_witness :
  csv_row enriched_CA (float_of_ratio 2 1) ∈ csv_rows [enriched_AB; enriched_CD; enriched_CA] ∧
  ∃ m j, m ∈ [enriched_AB; enriched_CD; enriched_CA] ∧ joint_expected_goals m = Some j ∧
    csv_row enriched_CA (float_of_ratio 2 1) = csv_row m j.
Proof.
  assert (csv_row enriched_CA (float_of_ratio 2 1)
            ∈ csv_rows [enriched_AB; enriched_CD; enriched_CA]) as Hrow
    by (simpl; right; left).
  split; [exact Hrow|].
  destruct (csv_zero_is_empty_cell _ _ Hrow) as (m & j & Hm & Hj & Heq & _).
  exists m, j. exact (conj Hm (conj Hj Heq)).
Defined.

(** ** Match enrichment engine *)

Lemma int_truediv_raises (a b : Z) (e : exn) :
  int_truediv a b = raise e → e = ZeroDivisionError ∨ e = OverflowError.
Proof.
  unfold int_truediv, raise. destruct b; [naive_solver | |]; destruct a; try discriminate;
    match goal with |- context [SFdiv ?p ?e ?x ?y] => destruct (SFdiv p e x y) end;
    naive_solver.
Qed.

Lemma py_truediv_raises (a b : pyval) (e : exn) :
  py_truediv a b = raise e → e = TypeError ∨ e = ZeroDivisionError ∨ e = OverflowError.
Proof.
  unfold py_truediv.
  destruct (as_number a) as [x|] eqn:Ha;
    [|destruct (as_number b) as [[]|]; intros [= <-]; by left].
  destruct (as_number b) as [y|] eqn:Hb; [|destruct x; intros [= <-]; by left].
  assert ((fx ← to_float x; fy ← to_float y;
           if float_truthy fy then mret (SFdiv prec emax fx fy)
           else raise ZeroDivisionError) = raise e →
          e = TypeError ∨ e = ZeroDivisionError ∨ e = OverflowError) as Hmixed.
  { destruct (to_float x) as [e1|fx] eqn:Hx.
    { apply to_float_raises in Hx as ->. intros [= <-]. by do 2 right. }
    destruct (to_float y) as [e2|fy] eqn:Hfy.
    { apply to_float_raises in Hfy as ->. intros [= <-]. by do 2 right. }
    simpl. destruct (float_truthy fy); [done|]. intros [= <-]. right. by left. }
  destruct x as [x|x], y as [y|y]; try exact Hmixed.
  intros [-> | ->]%int_truediv_raises; [right; by left | by do 2 right].
Qed.

(** The two exceptions of [goals_per_match]: a field that is not a number,
    and a number that does not fit a float. *)
Lemma goals_per_match_raises {str : Type} (ts : TeamStats pyval str) (e : exn) :
  goals_per_match ts = raise e → e = TypeError ∨ e = OverflowError.
Proof.
  unfold goals_per_match.
  destruct (py_le_zero (matches_played ts)) as [e'|[|]] eqn:Hle.
  - apply py_le_zero_raises in Hle as ->. intros [= <-]. by left.
  - done.
  - simpl.
    destruct (py_truediv (goals_scored ts) (matches_played ts)) as [e'|q] eqn:Hdiv;
      [|done].
    intros [= <-]. destruct (py_truediv_raises _ _ _ Hdiv) as [-> | [-> | ->]];
      [by left | | by right].
    exfalso. by apply (py_truediv_played (goals_scored ts) (matches_played ts)).
Qed.

Lemma goals_per_match_Some {str : Type} (ts : TeamStats pyval str) (v : float) :
  goals_per_match ts = mret (Some v) →
  py_le_zero (matches_played ts) = mret false ∧
  py_truediv (goals_scored ts) (matches_played ts) = mret v.
Proof.
  unfold goals_per_match.
  destruct (py_le_zero (matches_played ts)) as [e'|[|]] eqn:Hle; [done..|]. simpl.
  destruct (py_truediv (goals_scored ts) (matches_played ts)); [done|].
  intros [= ->]. done.
Qed.

Lemma expected_goals_raises (stats : option TeamStatsT) (e : exn) :
  expected_goals stats = raise e →
  (e = TypeError ∨ e = OverflowError) ∧ ∃ ts, stats = Some ts ∧ goals_per_match ts = raise e.
Proof.
  destruct stats as [ts|]; [|done]. simpl. intros Hts.
  split; [by apply (goals_per_match_raises ts) | eauto].
Qed.

Lemma fetched_keys_app (l1 l2 : list Action) :
  fetched_keys (l1 ++ l2) = fetched_keys l1 ++ fetched_keys l2.
Proof.
  induction l1 as [|[t s|d] l1 IH]; simpl; [done | by rewrite IH | done].
Qed.

Section EnrichmentProperties.
Variable reply : list Action → Z → Z → option TeamStatsT.

Lemma ensure_cached_results key st : results (ensure_cached reply key st) = results st.
Proof. unfold ensure_cached. by destruct (stats_cache st !! key). Qed.

Lemma ensure_cached_is_Some key st :
  is_Some (stats_cache (ensure_cached reply key st) !! key).
Proof.
  unfold ensure_cached. destruct (stats_cache st !! key) eqn:Hk; simpl.
  - by rewrite Hk.
  - by rewrite lookup_insert_eq.
Qed.

Lemma ensure_cached_mono key st k v :
  stats_cache st !! k = Some v → stats_cache (ensure_cached reply key st) !! k = Some v.
Proof.
  intros Hk. unfold ensure_cached. destruct (stats_cache st !! key) eqn:Hkey; simpl; [done|].
  rewrite lookup_insert_ne; [done | congruence].
Qed.

Lemma consistent_mono cache cache' r :
  (∀ k v, cache !! k = Some v → cache' !! k = Some v) →
  consistent cache r → consistent cache' r.
Proof.
  intros Hmono (Hh & Ha & Hrest).
  split; [by apply Hmono|]. split; [by apply Hmono | exact Hrest].
Qed.

(** What a successful pass of the loop body appends. *)
Lemma enrich_inr m cache r :
  enrich m cache = mret r → match_ r = m ∧ consistent cache r.
Proof.
  unfold enrich, cache_subscript, consistent, key_home, key_away.
  destruct (cache !! (home_team_id m, match_season_id m)) as [hs|] eqn:Hh; [|discriminate].
  destruct (cache !! (away_team_id m, match_season_id m)) as [aws|] eqn:Ha; [|discriminate].
  simpl. destruct (expected_goals hs) as [|eh] eqn:Heh; [discriminate|].
  simpl. destruct (expected_goals aws) as [|ea] eqn:Hea; [discriminate|].
  intros [= <-]. simpl. done.
Qed.

(** A pass of the loop body whose two keys are cached can only fail in the
    goals per match of cached statistics. *)
Lemma enrich_inl m cache e :
  is_Some (cache !! key_home m) → is_Some (cache !! key_away m) →
  enrich m cache = raise e →
  (e = TypeError ∨ e = OverflowError) ∧
  ∃ k ts, cache !! k = Some (Some ts) ∧ goals_per_match ts = raise e.
Proof.
  unfold enrich, cache_subscript, key_home, key_away. intros [hs Hhs] [aws Haws].
  rewrite Hhs, Haws. simpl.
  destruct (expected_goals hs) as [e1|eh] eqn:Heh.
  { intros [= <-]. apply expected_goals_raises in Heh as [He (ts & -> & Hts)].
    split; [done|]. eauto. }
  simpl. destruct (expected_goals aws) as [e2|ea] eqn:Hea; [|discriminate].
  intros [= <-]. apply expected_goals_raises in Hea as [He (ts & -> & Hts)].
  split; [done|]. eauto.
Qed.

(** Invariants of the loop are established pass by pass. *)
Lemma enrich_loop_invariant (Inv : Run → Prop) :
  (∀ key st, Inv st → Inv (ensure_cached reply key st)) →
  (∀ m st r, Inv st → enrich m (stats_cache st) = mret r →
     Inv (mkRun (stats_cache st) (results st ++ [r]) (actions st))) →
  ∀ ms st, Inv st → Inv (enrich_loop reply ms st).2.
Proof.
  intros Hfetch Happend ms. induction ms as [|m ms IH]; intros st Hst; [done|].
  simpl.
  set (st2 := ensure_cached reply _ (ensure_cached reply _ st)).
  assert (Inv st2) as Hst2 by (apply Hfetch, Hfetch, Hst).
  destruct (enrich m (stats_cache st2)) as [e|r] eqn:Hr; [done|].
  apply IH. by apply (Happend m).
Qed.

Lemma enrich_loop_consistent ms st :
  Forall (consistent (stats_cache st)) (results st) →
  Forall (consistent (stats_cache (enrich_loop reply ms st).2))
    (results (enrich_loop reply ms st).2).
Proof.
  apply (enrich_loop_invariant (λ st, Forall (consistent (stats_cache st)) (results st))).
  - intros key st' Hst'. rewrite ensure_cached_results.
    eapply Forall_impl; [done|]. intros r. apply consistent_mono.
    intros k v. apply ensure_cached_mono.
  - intros m st' r Hst' Hr. simpl. apply Forall_app. split; [done|].
    apply Forall_singleton. by apply enrich_inr in Hr as [_ ?].
Qed.

Lemma compute_consistent ms rs st :
  compute_expected_goals_for_matches reply ms = (mret rs, st) →
  rs = results st ∧ Forall (consistent (stats_cache st)) rs.
Proof.
  unfold compute_expected_goals_for_matches, compute_from.
  pose proof (enrich_loop_consistent ms Run_init (Forall_nil_2 _)) as Hinv.
  destruct (enrich_loop reply ms Run_init) as [[e|[]] st']; simpl in *; [discriminate|].
  intros [= <- <-]. done.
Qed.
End EnrichmentProperties.

Lemma elem_of_fetched_keys (acts : list Action) (k : Z * Z) :
  k ∈ fetched_keys acts ↔ ∃ i, acts !! i = Some (CallTeamStats k.1 k.2).
Proof.
  destruct k as [t s]. simpl. induction acts as [|[t' s'|d] acts IH]; simpl.
  - split; [by intros ?%elem_of_nil | by intros [i ?]].
  - rewrite elem_of_cons, IH. split.
    + intros [[= -> ->] | [i Hi]]; [by exists 0%nat | by exists (S i)].
    + intros [[|i] Hi]; simpl in Hi; [left; congruence | right; eauto].
  - rewrite IH. split.
    + intros [i Hi]. by exists (S i).
    + intros [[|i] Hi]; simpl in Hi; [done | eauto].
Qed.

Section CacheProperties.
Variable reply : list Action → Z → Z → option TeamStatsT.

Lemma cache_records_calls_init : cache_records_calls reply Run_init.
Proof.
  split; [constructor|]. intros k v. simpl. rewrite lookup_empty. split; [done|].
  by intros (i & Hi & _).
Qed.

Lemma ensure_cached_records_calls key st :
  cache_records_calls reply st → cache_records_calls reply (ensure_cached reply key st).
Proof.
  intros [Hnodup Hcache]. unfold ensure_cached.
  destruct (stats_cache st !! key) as [v0|] eqn:Hkey; [done|].
  assert (key ∉ fetched_keys (actions st)) as Hfresh.
  { intros [i Hi]%elem_of_fetched_keys.
    assert (stats_cache st !! key = Some (reply (take i (actions st)) key.1 key.2)) as Hin
      by (apply Hcache; eauto).
    congruence. }
  set (new := [CallTeamStats key.1 key.2; Sleep (float_of_ratio 1 5)]).
  split; simpl.
  - rewrite fetched_keys_app. simpl. destruct key as [t s]. simpl.
    apply NoDup_app. split_and!; [done | | apply NoDup_singleton].
    intros k Hk ->%list_elem_of_singleton. done.
  - intros k v. split.
    + destruct (decide (key = k)) as [<- | Hne].
      * rewrite lookup_insert_eq. intros [= <-]. exists (length (actions st)). split.
        -- by rewrite lookup_app_r, Nat.sub_diag by lia.
        -- by rewrite take_app_length.
      * rewrite lookup_insert_ne by done. intros (i & Hi & ->)%Hcache.
        pose proof (lookup_lt_Some _ _ _ Hi) as Hlt.
        exists i. split.
        -- by rewrite lookup_app_l.
        -- by rewrite take_app_le by lia.
    + intros (i & Hi & ->).
      destruct (decide (i < length (actions st))%nat) as [Hlt | Hge].
      * rewrite lookup_app_l in Hi by done. rewrite take_app_le by lia.
        assert (stats_cache st !! k = Some (reply (take i (actions st)) k.1 k.2)) as Hk
          by (apply Hcache; eauto).
        rewrite lookup_insert_ne; [done | congruence].
      * rewrite lookup_app_r in Hi by lia.
        destruct (i - length (actions st))%nat as [|[|n]] eqn:Hi'; simpl in Hi; [|done..].
        injection Hi as Ht Hs.
        assert (key = k) as <- by (destruct key, k; simpl in *; congruence).
        assert (i = length (actions st)) as -> by lia.
        by rewrite take_app_length, lookup_insert_eq.
Qed.

Lemma enrich_loop_records_calls ms st :
  cache_records_calls reply st → cache_records_calls reply (enrich_loop reply ms st).2.
Proof.
  apply (enrich_loop_invariant reply (cache_records_calls reply)).
  - intros key st'. apply ensure_cached_records_calls.
  - intros m st' r Hst' _. exact Hst'.
Qed.

Lemma compute_records_calls ms :
  cache_records_calls reply (compute_expected_goals_for_matches reply ms).2.
Proof.
  unfold compute_expected_goals_for_matches, compute_from.
  pose proof (enrich_loop_records_calls ms Run_init cache_records_calls_init) as Hinv.
  by destruct (enrich_loop reply ms Run_init) as [r st'].
Qed.
End CacheProperties.

(** C4: in a run of [compute_expected_goals_for_matches], whether it ends
    normally or not, no (team id, season id) pair is fetched twice, however
    many matches mention it. The reply of every fetch, an absent one
    included, is in the cache under its pair, and a pair in the cache is one
    that was fetched. *)
Theorem at_most_one_fetch_per_key (reply : list Action → Z → Z → option TeamStatsT)
    (ms : list MatchInfoT) :
  let st := (compute_expected_goals_for_matches reply ms).2 in
  NoDup (fetched_keys (actions st)) ∧
  (∀ i t s, actions st !! i = Some (CallTeamStats t s) →
     stats_cache st !! (t, s) = Some (reply (take i (actions st)) t s)) ∧
  (∀ i t s, actions st !! i = Some (CallTeamStats t s) →
     reply (take i (actions st)) t s = None → stats_cache st !! (t, s) = Some None) ∧
  (∀ k, is_Some (stats_cache st !! k) ↔ k ∈ fetched_keys (actions st)).
Proof.
  intros st. destruct (compute_records_calls reply ms) as [Hnodup Hcache].
  fold st in Hnodup, Hcache.
  assert (∀ i t s, actions st !! i = Some (CallTeamStats t s) →
            stats_cache st !! (t, s) = Some (reply (take i (actions st)) t s)) as Hstored.
  { intros i t s Hi. apply Hcache. exists i. done. }
  split_and!; [done | done | |].
  - intros i t s Hi Hnone. rewrite <- Hnone. by apply Hstored.
  - intros k. rewrite elem_of_fetched_keys. split.
    + intros [v (i & Hi & _)%Hcache]. eauto.
    + intros [i Hi]. eexists. apply Hcache. eauto.
Qed.

Lemma expected_goals_Some (stats : option TeamStatsT) (v : float) :
  expected_goals stats = mret (Some v) →
  ∃ s, stats = Some s ∧ py_le_zero (matches_played s) = mret false ∧
       py_truediv (goals_scored s) (matches_played s) = mret v.
Proof.
  destruct stats as [s|]; [|discriminate]. simpl.
  intros [? ?]%goals_per_match_Some. eauto.
Qed.

(** C1: for every enriched match that [compute_expected_goals_for_matches]
    returns, the joint value is defined exactly when both per-team values
    are, and is then their sum; a per-team value that is defined is
    [goals_scored / matches_played] of the statistics that the fetch for
    that team and season returned, which for two ints is their correctly
    rounded quotient. *)
Theorem joint_defined_iff_both_and_sum (reply : list Action → Z → Z → option TeamStatsT)
    (ms : list MatchInfoT) (rs : list MatchWithExpectedGoals) (st : Run)
    (r : MatchWithExpectedGoals) :
  compute_expected_goals_for_matches reply ms = (mret rs, st) →
  r ∈ rs →
  (is_Some (joint_expected_goals r) ↔
     is_Some (exp_goals_home r) ∧ is_Some (exp_goals_away r)) ∧
  (∀ j, joint_expected_goals r = Some j →
     ∃ h a, exp_goals_home r = Some h ∧ exp_goals_away r = Some a ∧ j = float_add h a) ∧
  (∀ h, exp_goals_home r = Some h →
     ∃ s i, home_stats r = Some s ∧
       actions st !! i = Some (CallTeamStats (home_team_id (match_ r)) (match_season_id (match_ r))) ∧
       reply (take i (actions st)) (home_team_id (match_ r)) (match_season_id (match_ r)) = Some s ∧
       py_truediv (goals_scored s) (matches_played s) = mret h ∧
       (∀ gs mp, goals_scored s = PInt gs → matches_played s = PInt mp →
          int_truediv gs mp = mret h)) ∧
  (∀ a, exp_goals_away r = Some a →
     ∃ s i, away_stats r = Some s ∧
       actions st !! i = Some (CallTeamStats (away_team_id (match_ r)) (match_season_id (match_ r))) ∧
       reply (take i (actions st)) (away_team_id (match_ r)) (match_season_id (match_ r)) = Some s ∧
       py_truediv (goals_scored s) (matches_played s) = mret a ∧
       (∀ gs mp, goals_scored s = PInt gs → matches_played s = PInt mp →
          int_truediv gs mp = mret a)).
Proof.
  intros Hrun Hr.
  pose proof (compute_records_calls reply ms) as [_ Hcache]. rewrite Hrun in Hcache.
  apply compute_consistent in Hrun as [-> Hall].
  rewrite Forall_forall in Hall.
  destruct (Hall r Hr) as (Hh & Ha & Heh & Hea & Hjoint).
  split_and!.
  - rewrite Hjoint. unfold joint_goals.
    destruct (exp_goals_home r), (exp_goals_away r); split;
      try (intros [_ []%is_Some_None]); try (intros [[]%is_Some_None _]);
      try (intros []%is_Some_None); eauto.
  - intros j. rewrite Hjoint.
    destruct (exp_goals_home r) as [h|], (exp_goals_away r) as [a|]; simpl; try done.
    intros [= <-]. eauto.
  - intros h Hexp. rewrite Hexp in Heh.
    apply expected_goals_Some in Heh as (s & Hs & _ & Hdiv).
    rewrite Hs in Hh. apply Hcache in Hh as (i & Hi & Hreply). simpl in *.
    exists s, i. split_and!; [done..|].
    intros gs mp Hgs Hmp. by rewrite Hgs, Hmp in Hdiv.
  - intros a Hexp. rewrite Hexp in Hea.
    apply expected_goals_Some in Hea as (s & Hs & _ & Hdiv).
    rewrite Hs in Ha. apply Hcache in Ha as (i & Hi & Hreply). simpl in *.
    exists s, i. split_and!; [done..|].
    intros gs mp Hgs Hmp. by rewrite Hgs, Hmp in Hdiv.
Qed.

Lemma joint_defined_iff_both_and_sum_witness :
  scenario_run = (mret [enriched_AB; enriched_CD; enriched_CA], scenario_run.2) ∧
  enriched_AB ∈ [enriched_AB; enriched_CD; enriched_CA] ∧
  ∃ h a, exp_goals_home enriched_AB = Some h ∧ exp_goals_away enriched_AB = Some a ∧
         float_of_ratio 4 1 = float_add h a.
Proof.
  assert (scenario_run = (mret [enriched_AB; enriched_CD; enriched_CA], scenario_run.2))
    as Hrun by (vm_compute; reflexivity).
  assert (enriched_AB ∈ [enriched_AB; enriched_CD; enriched_CA]) as Hin by left.
  split; [exact Hrun|]. split; [exact Hin|].
  destruct (joint_defined_iff_both_and_sum scenario_reply _ _ _ _ Hrun Hin) as (_ & Hsum & _).
  apply Hsum. vm_compute. reflexivity.
Defined.

(** C10, as the code has it: for every enriched match that
    [compute_expected_goals_for_matches] returns with a joint value, both
    statistics are present, and in both [matches_played] is a number that is
    not [<= 0], hence [> 0] when it is an int, and [goals_scored] is a
    number; the four statistics cells of its CSV row are therefore these
    numbers and never the empty fallback. *)
Theorem joint_defined_stats_present (reply : list Action → Z → Z → option TeamStatsT)
    (ms : list MatchInfoT) (rs : list MatchWithExpectedGoals) (st : Run)
    (r : MatchWithExpectedGoals) (j : float) :
  compute_expected_goals_for_matches reply ms = (mret rs, st) →
  r ∈ rs →
  joint_expected_goals r = Some j →
  ∃ hs aws, home_stats r = Some hs ∧ away_stats r = Some aws ∧
    py_le_zero (matches_played hs) = mret false ∧
    py_le_zero (matches_played aws) = mret false ∧
    (∀ mp, matches_played hs = PInt mp → 0 < mp) ∧
    (∀ mp, matches_played aws = PInt mp → 0 < mp) ∧
    csv_row r j !! 6%nat = Some (goals_scored hs) ∧
    csv_row r j !! 7%nat = Some (matches_played hs) ∧
    csv_row r j !! 8%nat = Some (goals_scored aws) ∧
    csv_row r j !! 9%nat = Some (matches_played aws) ∧
    is_Some (as_number (goals_scored hs)) ∧ is_Some (as_number (matches_played hs)) ∧
    is_Some (as_number (goals_scored aws)) ∧ is_Some (as_number (matches_played aws)) ∧
    (∀ i, (6 ≤ i ≤ 9)%nat → csv_row r j !! i ≠ Some (PStr "")).
Proof.
  intros Hrun Hr Hj.
  apply compute_consistent in Hrun as [-> Hall].
  rewrite Forall_forall in Hall.
  destruct (Hall r Hr) as (_ & _ & Heh & Hea & Hjoint).
  rewrite Hj in Hjoint.
  destruct (exp_goals_home r) as [h|], (exp_goals_away r) as [a|]; try done.
  apply expected_goals_Some in Heh as (hs & Hhs & Hmph & Hdivh).
  apply expected_goals_Some in Hea as (aws & Haws & Hmpa & Hdiva).
  apply py_truediv_number in Hdivh as [Hgh Hmh].
  apply py_truediv_number in Hdiva as [Hga Hma].
  assert (∀ v, is_Some (as_number v) → Some v ≠ Some (PStr "")) as Hnum.
  { intros v [n Hn] [= ->]. done. }
  exists hs, aws. simpl. rewrite Hhs, Haws. simpl. split_and!; try done.
  - intros mp Hmp. rewrite Hmp in Hmph. injection Hmph as Hmph. by apply Z.leb_gt in Hmph.
  - intros mp Hmp. rewrite Hmp in Hmpa. injection Hmpa as Hmpa. by apply Z.leb_gt in Hmpa.
  - intros i [Hlo Hhi].
    do 6 (destruct i as [|i]; [lia|]).
    do 4 (destruct i as [|i]; [simpl; rewrite ?Hhs, ?Haws; by apply Hnum|]). lia.
Qed.

Lemma joint_defined_stats_present_witness :
  scenario_run = (mret [enriched_AB; enriched_CD; enriched_CA], scenario_run.2) ∧
  enriched_CA ∈ [enriched_AB; enriched_CD; enriched_CA] ∧
  joint_expected_goals enriched_CA = Some (float_of_ratio 2 1) ∧
  ∃ hs aws, home_stats enriched_CA = Some hs ∧ away_stats enriched_CA = Some aws ∧
    py_le_zero (matches_played hs) = mret false ∧
    py_le_zero (matches_played aws) = mret false.
Proof.
  assert (scenario_run = (mret [enriched_AB; enriched_CD; enriched_CA], scenario_run.2))
    as Hrun by (vm_compute; reflexivity).
  assert (enriched_CA ∈ [enriched_AB; enriched_CD; enriched_CA]) as Hin
    by (right; right; left).
  assert (joint_expected_goals enriched_CA = Some (float_of_ratio 2 1)) as Hj
    by reflexivity.
  split; [exact Hrun|]. split; [exact Hin|]. split; [exact Hj|].
  destruct (joint_defined_stats_present scenario_reply _ _ _ _ _ Hrun Hin Hj)
    as (hs & aws & Hhs & Haws & Hmph & Hmpa & _).
  exists hs, aws. exact (conj Hhs (conj Haws (conj Hmph Hmpa))).
Defined.

(** C10 as stated fails: a statistics response whose [matchesPlayed] is NaN
    gives statistics that pass the [<= 0] test, so that both per-team values
    and the joint value are defined (they are NaN) and the match is
    exported, although [matches_played] is not greater than zero. *)
Lemma joint_defined_nan_matches_played :
  nan_reply [] 1 2024 = Some (stats_nan 1) ∧
  (compute_expected_goals_for_matches nan_reply [match_AB]).1 = mret [enriched_nan] ∧
  joint_expected_goals enriched_nan = Some S754_nan ∧
  matches_played <$> home_stats enriched_nan = Some (PFloat S754_nan) ∧
  SFltb (S754_zero false) S754_nan = false ∧
  csv_rows [enriched_nan] = [csv_row enriched_nan S754_nan].
Proof. split_and!; vm_compute; reflexivity. Qed.

(** X15: when the goals and the matches of a team's statistics are both
    ints, the per-team value of a returned record is an ordinary number
    (neither infinite nor NaN), so that its cell in the CSV file is empty or
    ends with two decimals. *)
Lemma compute_exp_goals_finite (reply : list Action → Z → Z → option TeamStatsT)
    (ms : list MatchInfoT) (rs : list MatchWithExpectedGoals) (st : Run)
    (r : MatchWithExpectedGoals) (s : TeamStatsT) (gs mp : Z) (v : float) :
  compute_expected_goals_for_matches reply ms = (mret rs, st) →
  r ∈ rs →
  (home_stats r = Some s ∧ exp_goals_home r = Some v) ∨
  (away_stats r = Some s ∧ exp_goals_away r = Some v) →
  goals_scored s = PInt gs → matches_played s = PInt mp →
  float_finite v ∧ (float_is_zero v = false → two_decimals (format_2f v)).
Proof.
  intros Hrun Hr Hv Hgs Hmp.
  apply compute_consistent in Hrun as [-> Hall].
  rewrite Forall_forall in Hall.
  destruct (Hall r Hr) as (_ & _ & Heh & Hea & _).
  assert (float_finite v) as Hfin.
  { destruct Hv as [[Hs Hv] | [Hs Hv]]; [rewrite Hs, Hv in Heh | rewrite Hs, Hv in Hea].
    - apply expected_goals_Some in Heh as (s' & [= <-] & _ & Hdiv).
      rewrite Hgs, Hmp in Hdiv. by apply int_truediv_finite in Hdiv.
    - apply expected_goals_Some in Hea as (s' & [= <-] & _ & Hdiv).
      rewrite Hgs, Hmp in Hdiv. by apply int_truediv_finite in Hdiv. }
  split; [done|]. intros _. by apply format_2f_two_decimals.
Qed.

(** The scenario of the two fixtures: A (10 goals in 5 matches) against B
    (8 in 4) is written with 2.00, 2.00 and 4.00; C against D, whose
    statistics are missing, is left out; C (no goal in 6 matches) against A
    is written with an empty home cell. *)
Example scenario_results :
  scenario_run.1 = mret [enriched_AB; enriched_CD; enriched_CA].
Proof. vm_compute. reflexivity. Qed.

Example scenario_csv :
  (export_to_csv [enriched_AB; enriched_CD; enriched_CA] "2024-01-01")
  = ("handball_expected_goals_2024-01-01.csv",
     [csv_header;
      [PStr "A"; PStr "B"; PStr "Cup"; PStr "2.00"; PStr "2.00"; PStr "4.00";
       PInt 10; PInt 5; PInt 8; PInt 4];
      [PStr "C"; PStr "A"; PStr "Cup"; PStr ""; PStr "2.00"; PStr "2.00";
       PInt 0; PInt 6; PInt 10; PInt 5]]).
Proof. vm_compute. reflexivity. Qed.

Example scenario_fetches :
  fetched_keys (actions scenario_run.2) = [(1, 2024); (2, 2024); (3, 2024); (4, 2024)] ∧
  stats_cache scenario_run.2 !! (4, 2024) = Some None.
Proof. split; vm_compute; reflexivity. Qed.

Section LoopOutcome.
Variable reply : list Action → Z → Z → option TeamStatsT.

(** The loop appends one record per match, in order, or stops on the
    exception of the goals per match of statistics that are in the cache. *)
Lemma enrich_loop_outcome ms st :
  let '(res, st') := enrich_loop reply ms st in
  ((∃ e, res = raise e ∧ (e = TypeError ∨ e = OverflowError) ∧
      ∃ k ts, stats_cache st' !! k = Some (Some ts) ∧ goals_per_match ts = raise e) ∨
   res = mret () ∧ match_ <$> results st' = (match_ <$> results st) ++ ms).
Proof.
  revert st. induction ms as [|m ms IH]; intros st; simpl.
  { right. by rewrite app_nil_r. }
  set (st1 := ensure_cached reply (home_team_id m, match_season_id m) st).
  set (st2 := ensure_cached reply (away_team_id m, match_season_id m) st1).
  destruct (enrich m (stats_cache st2)) as [e|r] eqn:Hr.
  - left. exists e. split; [done|].
    apply (enrich_inl m (stats_cache st2)); [| |done].
    + destruct (ensure_cached_is_Some reply (home_team_id m, match_season_id m) st)
        as [v Hv].
      eexists. by apply ensure_cached_mono.
    + apply ensure_cached_is_Some.
  - specialize (IH (mkRun (stats_cache st2) (results st2 ++ [r]) (actions st2))).
    destruct (enrich_loop reply ms _) as [res st']. simpl in IH.
    destruct IH as [Hraise | [-> Hres]]; [by left | right]. split; [done|].
    rewrite Hres, fmap_app. simpl.
    apply enrich_inr in Hr as [-> _].
    unfold st2, st1. rewrite !ensure_cached_results.
    by rewrite <- app_assoc.
Qed.
End LoopOutcome.






(** ** Network helper *)

Lemma count_gets_failed_attempts url params sleep k :
  count_gets (failed_attempts url params sleep k) = k.
Proof. induction k as [|k IH]; simpl; [done | by rewrite IH]. Qed.


Lemma count_gets_app (tr1 tr2 : list Event) :
  count_gets (tr1 ++ tr2) = (count_gets tr1 + count_gets tr2)%nat.
Proof. induction tr1 as [|[url params|d] tr1 IH]; simpl; [done | by rewrite IH | done]. Qed.


(** The default delay of [get_json] is one that [time.sleep] accepts. *)
Lemma time_sleep_default : time_sleep (float_of_ratio 1 2) = mret ().
Proof. vm_compute. reflexivity. Qed.

Section NetworkProperties.
Variable http : list Event → string → option pyval → Outcome.

Lemma get_json_loop_all_fail n url params sleep tr :
  ((0 < n)%nat → time_sleep sleep = mret ()) →
  (∀ i, (i < n)%nat →
     attempt (http (tr ++ failed_attempts url params sleep i) url params) = None) →
  get_json_loop http n url params sleep tr
    = (mret PNone, tr ++ failed_attempts url params sleep n).
Proof.
  revert tr. induction n as [|n IH]; intros tr Hsleep Hfail; simpl.
  { by rewrite app_nil_r. }
  pose proof (Hfail 0%nat ltac:(lia)) as H0. simpl in H0. rewrite app_nil_r in H0.
  rewrite H0, (Hsleep ltac:(lia)), IH.
  - by rewrite <- !app_assoc.
  - intros _. apply Hsleep. lia.
  - intros i Hi. specialize (Hfail (S i) ltac:(lia)). simpl in Hfail.
    by rewrite <- !app_assoc.
Qed.

Lemma get_json_loop_first_success n k url params sleep tr body :
  (k < n)%nat →
  ((0 < k)%nat → time_sleep sleep = mret ()) →
  (∀ i, (i < k)%nat →
     attempt (http (tr ++ failed_attempts url params sleep i) url params) = None) →
  attempt (http (tr ++ failed_attempts url params sleep k) url params) = Some body →
  get_json_loop http n url params sleep tr
    = (mret body, tr ++ failed_attempts url params sleep k ++ [EvGet url params]).
Proof.
  revert n tr. induction k as [|k IH]; intros n tr Hlt Hsleep Hfail Hok;
    (destruct n as [|n]; [lia|]); simpl.
  - simpl in Hok. rewrite app_nil_r in Hok. by rewrite Hok.
  - pose proof (Hfail 0%nat ltac:(lia)) as H0. simpl in H0. rewrite app_nil_r in H0.
    rewrite H0, (Hsleep ltac:(lia)), (IH n); [by rewrite <- !app_assoc | lia | | |].
    + intros _. apply Hsleep. lia.
    + intros i Hi. specialize (Hfail (S i) ltac:(lia)). simpl in Hfail.
      by rewrite <- !app_assoc.
    + simpl in Hok. by rewrite <- !app_assoc.
Qed.

End NetworkProperties.




(** ** Team statistics retriever *)

Lemma result_bind_ret {A B : Type} (x : A) (f : A → result B) : mret x ≫= f = f x.
Proof. reflexivity. Qed.

Lemma result_bind_inr {A B : Type} (x : A) (f : A → result B) :
  (inr x : result A) ≫= f = f x.
Proof. reflexivity. Qed.

Lemma result_bind_inl {A B : Type} (e : exn) (f : A → result B) :
  (inl e : result A) ≫= f = inl e.
Proof. reflexivity. Qed.

(** Case analysis on the first computation of a chain of binds whose
    failure contradicts the hypothesis at hand. *)
Ltac bind_case x v :=
  destruct x as [?|v] eqn:?;
  [rewrite ?result_bind_inl; discriminate | rewrite ?result_bind_inr].

Lemma py_or_get (stats : gmap string pyval) (key : string) (rest : pyval) :
  py_or (py_get (PDict stats) key PNone) (mret rest)
    = mret (match stats !! key with
            | Some v => if truthy v then v else rest
            | None => rest
            end).
Proof.
  unfold py_or. simpl. destruct (stats !! key) as [v|]; simpl; [|done].
  by destruct (truthy v).
Qed.

Lemma or_chain_first_truthy (stats : gmap string pyval) (k1 k2 k3 : string) :
  py_or (py_get (PDict stats) k1 PNone)
    (py_or (py_get (PDict stats) k2 PNone)
       (py_or (py_get (PDict stats) k3 PNone) (mret (PInt 0))))
  = mret (first_truthy stats [k1; k2; k3]).
Proof. rewrite !py_or_get. done. Qed.

(** C6, as the code has it: when a response carries a statistics object
    and, if any, a team object, [get_team_stats] resolves goals scored to
    the first of [goalsScored], [goalsFor], [scored] whose value is truthy,
    and to zero when none is (absent, null, zero and the like are passed
    over); matches played likewise over [matchesPlayed], [played], [games].
    In particular a record without [goalsScored] whose [goalsFor] is a
    non-zero number resolves to that number. *)
Theorem team_stats_first_truthy (team_id season_id : Z) (data : pyval)
    (stats team : gmap string pyval) :
  truthy data →
  py_get data "statistics" (PDict ∅) = mret (PDict stats) →
  py_get data "team" (PDict ∅) = mret (PDict team) →
  ∃ ts, team_stats_of_json team_id season_id data = Some ts ∧
    goals_scored ts = first_truthy stats goals_scored_fields ∧
    matches_played ts = first_truthy stats matches_played_fields ∧
    (∀ v, stats !! "goalsScored" = None → stats !! "goalsFor" = Some v → truthy v →
       goals_scored ts = v).
Proof.
  intros Hdata Hstats Hteam. unfold team_stats_of_json, team_stats_fields.
  destruct (truthy data); [|done]. simpl negb. cbv iota.
  rewrite Hstats, result_bind_ret, !or_chain_first_truthy, !result_bind_ret.
  rewrite Hteam, result_bind_ret.
  simpl. eexists. split; [done|]. simpl. split_and!; [done..|].
  intros v -> -> Hv. by destruct (truthy v).
Qed.

Lemma team_stats_first_truthy_witness :
  ∃ ts, team_stats_of_json 1 2024 stats_alias_only = Some ts ∧
    goals_scored ts
      = first_truthy (<["goalsFor" := PInt 31]> {[ "matchesPlayed" := PInt 4 ]})
          goals_scored_fields ∧
    matches_played ts
      = first_truthy (<["goalsFor" := PInt 31]> {[ "matchesPlayed" := PInt 4 ]})
          matches_played_fields.
Proof.
  destruct (team_stats_first_truthy 1 2024 stats_alias_only
              (<["goalsFor" := PInt 31]> {[ "matchesPlayed" := PInt 4 ]}) ∅)
    as (ts & Hts & Hgs & Hmp & _).
  - vm_compute. exact I.
  - vm_compute. reflexivity.
  - vm_compute. reflexivity.
  - exists ts. exact (conj Hts (conj Hgs Hmp)).
Defined.

(** C6 as stated fails: a record whose [goalsScored] is zero and whose
    [goalsFor] is seven carries [goalsScored], so that first-present-wins
    resolves goals scored to zero; the code passes over the zero and
    resolves it to seven. A field that is present with a falsy value, here
    [null], also gives the default although a candidate is present. *)
Lemma team_stats_not_first_present :
  goals_scored <$> team_stats_of_json 1 2024 stats_zero_then_alias = Some (PInt 7) ∧
  first_present (<["goalsScored" := PInt 0]> {[ "goalsFor" := PInt 7 ]}) goals_scored_fields
    = PInt 0 ∧
  goals_scored <$> team_stats_of_json 1 2024
                     (PDict {[ "statistics" := PDict {[ "goalsScored" := PNone ]} ]})
    = Some (PInt 0) ∧
  first_present {[ "goalsScored" := PNone ]} goals_scored_fields = PNone.
Proof. split_and!; vm_compute; reflexivity. Qed.

(** ** Schedule retriever *)

Lemma match_info_fields_inr (ev season_id : pyval) (m : MatchInfo pyval pyval) :
  match_info_fields ev season_id = mret m →
  match_season_id m = season_id ∧
  py_subscript ev "id" = mret (event_id m) ∧
  (∃ home, py_subscript ev "homeTeam" = mret home ∧
           py_subscript home "id" = mret (home_team_id m) ∧
           py_subscript home "name" = mret (home_team_name m)) ∧
  (∃ away, py_subscript ev "awayTeam" = mret away ∧
           py_subscript away "id" = mret (away_team_id m) ∧
           py_subscript away "name" = mret (away_team_name m)) ∧
  py_get ev "startTimestamp" (PInt 0) = mret (start_timestamp m) ∧
  (∃ tournament, py_get ev "tournament" (PDict ∅) = mret tournament ∧
                 py_get tournament "name" (PStr "Unknown") = mret (tournament_name m)).
Proof.
  unfold match_info_fields.
  bind_case (py_subscript ev "id") eid.
  bind_case (py_get ev "startTimestamp" (PInt 0)) ts.
  bind_case (py_subscript ev "homeTeam") home.
  bind_case (py_subscript home "id") hid.
  bind_case (py_subscript home "name") hname.
  bind_case (py_subscript ev "awayTeam") away.
  bind_case (py_subscript away "id") aid.
  bind_case (py_subscript away "name") aname.
  bind_case (py_get ev "tournament" (PDict ∅)) tournament.
  bind_case (py_get tournament "name" (PStr "Unknown")) tname.
  intros [= <-]. simpl. split_and!; eauto.
Qed.

Lemma match_info_of_event_Some (ev : pyval) (m : MatchInfo pyval pyval) :
  match_info_of_event ev = mret (Some m) →
  match_season_id m ≠ PNone ∧
  (∃ season, py_get ev "season" (PDict ∅) = mret season ∧
             py_get season "id" PNone = mret (match_season_id m)) ∧
  py_subscript ev "id" = mret (event_id m) ∧
  (∃ home, py_subscript ev "homeTeam" = mret home ∧
           py_subscript home "id" = mret (home_team_id m) ∧
           py_subscript home "name" = mret (home_team_name m)) ∧
  (∃ away, py_subscript ev "awayTeam" = mret away ∧
           py_subscript away "id" = mret (away_team_id m) ∧
           py_subscript away "name" = mret (away_team_name m)) ∧
  py_get ev "startTimestamp" (PInt 0) = mret (start_timestamp m) ∧
  (∃ tournament, py_get ev "tournament" (PDict ∅) = mret tournament ∧
                 py_get tournament "name" (PStr "Unknown") = mret (tournament_name m)).
Proof.
  unfold match_info_of_event.
  bind_case (py_get ev "season" (PDict ∅)) season.
  bind_case (py_get season "id" PNone) sid.
  destruct (match_info_fields ev sid) as [|m'] eqn:Hfields; [by destruct sid|].
  apply match_info_fields_inr in Hfields as (Hs & Hrest).
  destruct sid; try done; intros [= <-]; (split; [by rewrite Hs|]);
    (split; [exists season; by rewrite Hs | exact Hrest]).
Qed.

Lemma py_subscript_field (obj : pyval) (key : string) (v : pyval) :
  py_subscript obj key = mret v → json_field obj key = Some v.
Proof.
  destruct obj as [| | | | | |d]; try done. simpl.
  destruct (d !! key); [by intros [= ->] | done].
Qed.

(** A [.get] that returns was called on an object, and returns the field
    of that object or the default. *)
Lemma py_get_field (obj : pyval) (key : string) (dflt v : pyval) :
  py_get obj key dflt = mret v →
  ∃ d, obj = PDict d ∧ v = default dflt (d !! key).
Proof. destruct obj as [| | | | | |d]; try done. simpl. intros [= <-]. eauto. Qed.

(** The season of a parsed entry: the entry has a [season] object, and the
    season identifier of the record is the [id] of that object. *)
Lemma season_link (ev season sid : pyval) :
  py_get ev "season" (PDict ∅) = mret season →
  py_get season "id" PNone = mret sid →
  sid ≠ PNone →
  json_field ev "season" = Some season ∧ json_field season "id" = Some sid.
Proof.
  intros (d & -> & ->)%py_get_field (s' & Hseason & ->)%py_get_field Hsid. simpl.
  destruct (d !! "season") as [season|] eqn:Hd; simpl in Hseason.
  - subst season. simpl. split; [done|]. by destruct (s' !! "id").
  - injection Hseason as <-. by rewrite lookup_empty in Hsid.
Qed.

(** A record that the parser builds from an entry is the record that the
    entry stands for. *)
Lemma match_info_of_event_record (ev : pyval) (m : MatchInfo pyval pyval) :
  match_info_of_event ev = mret (Some m) → entry_record ev = Some m.
Proof.
  intros (Hsid & (season & Hseason & Hid) & Heid & (home & Hhome & Hhid & Hhname)
          & (away & Haway & Haid & Haname) & Hstart & tournament & Htour & Htname)
    %match_info_of_event_Some.
  destruct (season_link _ _ _ Hseason Hid Hsid) as [Hs1 Hs2].
  apply py_subscript_field in Heid, Hhome, Hhid, Hhname, Haway, Haid, Haname.
  apply py_get_field in Hstart as (d & -> & Hstart).
  apply py_get_field in Htour as (d' & [= <-] & ->).
  apply py_get_field in Htname as (t & Ht & Htname).
  unfold entry_record.
  rewrite Hs1. simpl. rewrite Hs2. simpl. simpl in Heid. rewrite Heid. simpl.
  simpl in Hhome. rewrite Hhome. simpl. rewrite Hhid. simpl. rewrite Hhname. simpl.
  simpl in Haway. rewrite Haway. simpl. rewrite Haid. simpl. rewrite Haname. simpl.
  assert (default (PStr "Unknown") (d !! "tournament" ≫= λ t, json_field t "name")
          = tournament_name m) as ->.
  { rewrite Htname. destruct (d !! "tournament") as [t0|]; simpl in *.
    - by subst t0.
    - injection Ht as <-. by rewrite lookup_empty. }
  rewrite <- Hstart.
  destruct m as [eid start hid hname aid aname tname sid]. simpl in *.
  by destruct sid.
Qed.

Lemma scheduled_events_loop_sound (evs : list pyval) (acc out : list (MatchInfo pyval pyval)) :
  scheduled_events_loop evs acc = mret out →
  ∃ new, out = acc ++ new ∧
    Forall (λ m, ∃ ev, ev ∈ evs ∧ match_info_of_event ev = mret (Some m)) new.
Proof.
  revert acc. induction evs as [|ev evs IH]; intros acc; simpl.
  { intros [= <-]. exists []. by rewrite app_nil_r. }
  destruct (match_info_of_event ev) as [e|[m|]] eqn:Hev.
  - destruct e; try done; intros (new & -> & Hnew)%IH; exists new; split; [done|];
      eapply Forall_impl; [done|]; intros m (ev' & ? & ?); exists ev'; split; [by right | done].
  - intros (new & -> & Hnew)%IH. exists (m :: new). split; [by rewrite <- app_assoc|].
    constructor.
    + exists ev. split; [by left | done].
    + eapply Forall_impl; [done|]. intros m' (ev' & ? & ?). exists ev'. split; [by right | done].
  - intros (new & -> & Hnew)%IH. exists new. split; [done|].
    eapply Forall_impl; [done|]. intros m' (ev' & ? & ?). exists ev'. split; [by right | done].
Qed.

(** X8: what the schedule retriever does deliver: every record it returns
    is the record of an entry of the response. That entry has a season
    object whose [id] is the season identifier of the record and is not
    [null], an [id], and home and away teams with [id] and [name], and the
    record carries these values. *)
Lemma scheduled_events_sound (data : pyval) (out : list (MatchInfo pyval pyval))
    (m : MatchInfo pyval pyval) :
  scheduled_events_of_json data = mret out → m ∈ out →
  match_season_id m ≠ PNone ∧
  ∃ events evs ev, py_subscript data "events" = mret events ∧ py_iter events = mret evs ∧
    ev ∈ evs ∧
    entry_record ev = Some m ∧
    (∃ season, json_field ev "season" = Some season ∧
               json_field season "id" = Some (match_season_id m)) ∧
    py_subscript ev "id" = mret (event_id m) ∧
    (∃ home, py_subscript ev "homeTeam" = mret home ∧
             py_subscript home "id" = mret (home_team_id m) ∧
             py_subscript home "name" = mret (home_team_name m)) ∧
    (∃ away, py_subscript ev "awayTeam" = mret away ∧
             py_subscript away "id" = mret (away_team_id m) ∧
             py_subscript away "name" = mret (away_team_name m)).
Proof.
  unfold scheduled_events_of_json.
  destruct (truthy data); simpl negb; cbv iota; [|by intros [= <-] ?%elem_of_nil].
  destruct (py_contains "events" data) as [|[|]];
    rewrite ?result_bind_inl, ?result_bind_inr; simpl negb; cbv iota;
    [done | | by intros [= <-] ?%elem_of_nil].
  destruct (py_subscript data "events") as [|events] eqn:Hevents;
    rewrite ?result_bind_inl, ?result_bind_inr; [done|].
  destruct (py_iter events) as [|evs] eqn:Hevs;
    rewrite ?result_bind_inl, ?result_bind_inr; [done|].
  intros (new & -> & Hnew)%scheduled_events_loop_sound Hm. simpl in Hm.
  rewrite Forall_forall in Hnew. destruct (Hnew m Hm) as (ev & Hev & Hparse).
  pose proof (match_info_of_event_record ev m Hparse) as Hrecord.
  apply match_info_of_event_Some in Hparse
    as (Hsid & (season & Hseason & Hid) & Heid & Hhome & Haway & _).
  destruct (season_link _ _ _ Hseason Hid Hsid) as [Hs1 Hs2].
  split; [done|]. exists events, evs, ev.
  split_and!; [done.. | by exists season | done | done | done].
Qed.

(** C5, where the code departs from it: an entry whose season is [null], or
    whose home team is [null], is not skipped. The first makes
    [get_scheduled_events] leave with an [AttributeError], the second with a
    [TypeError], since only [KeyError] is caught. *)
Theorem schedule_null_entry_raises :
  scheduled_events_of_json schedule_null_season = raise AttributeError ∧
  scheduled_events_of_json schedule_null_home_team = raise TypeError.
Proof. split; vm_compute; reflexivity. Qed.

(** ** The retrievers on a network that is down *)

(** Three failed requests and three delays later, [get_team_stats] returns
    [None] and [get_scheduled_events] the empty list. *)
Example get_team_stats_network_down :
  get_team_stats http_down 1 2024 []
  = (mret None,
     failed_attempts "https://api.sofascore.com/api/v1/team/1/statistics/seasons/2024"
       None (float_of_ratio 1 2) 3).
Proof. vm_compute. reflexivity. Qed.

Example get_scheduled_events_network_down :
  get_scheduled_events http_down "2024-01-01" []
  = (mret [],
     failed_attempts
       "https://api.sofascore.com/api/v1/sport/handball/scheduled-events/2024-01-01"
       None (float_of_ratio 1 2) 3).
Proof. vm_compute. reflexivity. Qed.

(** * Further properties *)

(** ** Network helper, on any network *)

Lemma attempt_Some (o : Outcome) (body : pyval) :
  attempt o = Some body ↔ o = Response 200 (Some body).
Proof.
  destruct o as [status json|]; simpl; [|done].
  destruct (status =? 200) eqn:Hs.
  - apply Z.eqb_eq in Hs as ->. split; [by intros -> | by intros [= ->]].
  - apply Z.eqb_neq in Hs. split; [done | by intros [= -> _]].
Qed.

Lemma failed_attempts_snoc (url : string) (params : option pyval) (sleep : float)
    (tr : list Event) (i : nat) :
  ((tr ++ [EvGet url params]) ++ [EvSleep sleep]) ++ failed_attempts url params sleep i
  = tr ++ failed_attempts url params sleep (S i).
Proof. simpl. by rewrite <- !app_assoc. Qed.

Lemma get_json_loop_outcome (http : list Event → string → option pyval → Outcome)
    (n : nat) (url : string) (params : option pyval) (sleep : float) (tr : list Event) :
  ∃ k,
    (∀ i, (i < k)%nat →
       attempt (http (tr ++ failed_attempts url params sleep i) url params) = None) ∧
    ((k = n ∧ ((0 < k)%nat → time_sleep sleep = mret ()) ∧
      get_json_loop http n url params sleep tr
        = (mret PNone, tr ++ failed_attempts url params sleep k)) ∨
     ((k < n)%nat ∧ ((0 < k)%nat → time_sleep sleep = mret ()) ∧ ∃ body,
        attempt (http (tr ++ failed_attempts url params sleep k) url params) = Some body ∧
        get_json_loop http n url params sleep tr
          = (mret body, tr ++ failed_attempts url params sleep k ++ [EvGet url params])) ∨
     (k = 1%nat ∧ (0 < n)%nat ∧ ∃ e, time_sleep sleep = raise e ∧
        get_json_loop http n url params sleep tr = (raise e, tr ++ [EvGet url params]))).
Proof.
  revert tr. induction n as [|n IH]; intros tr.
  { exists 0%nat. split; [lia|]. left. simpl. rewrite app_nil_r. split; [done|].
    split; [lia | done]. }
  simpl. destruct (attempt (http tr url params)) as [body|] eqn:Hfirst.
  - exists 0%nat. split; [lia|]. right. left. split; [lia|]. split; [lia|]. exists body.
    simpl. by rewrite app_nil_r.
  - destruct (time_sleep sleep) as [e|[]] eqn:Hsleep.
    { exists 1%nat. split.
      - intros i Hi. assert (i = 0%nat) as -> by lia. simpl. by rewrite app_nil_r.
      - right. right. split; [done|]. split; [lia|]. by exists e. }
    destruct (IH ((tr ++ [EvGet url params]) ++ [EvSleep sleep])) as (k & Hfail & Hk).
    destruct Hk as [(-> & _ & Hrun) | [(Hlt & _ & body & Hbody & Hrun) | (_ & _ & e & He & _)]].
    + exists (S n). split.
      * intros [|i] Hi; [by simpl; rewrite app_nil_r|].
        rewrite <- failed_attempts_snoc. apply Hfail. lia.
      * left. split; [done|]. split; [done|]. by rewrite Hrun, failed_attempts_snoc.
    + exists (S k). split.
      * intros [|i] Hi; [by simpl; rewrite app_nil_r|].
        rewrite <- failed_attempts_snoc. apply Hfail. lia.
      * right. left. split; [lia|]. split; [done|]. exists body.
        rewrite <- failed_attempts_snoc.
        split; [done|]. rewrite Hrun. by rewrite <- !app_assoc.
    + done.
Qed.


(** ** The retrievers and the network *)

Lemma only_requests_failed_attempts (url : string) (k : nat) :
  only_requests url (failed_attempts url None (float_of_ratio 1 2) k).
Proof.
  induction k as [|k IH]; simpl; [constructor|].
  constructor; [by left|]. constructor; [by right | done].
Qed.

Lemma get_json_default_trace (http : list Event → string → option pyval → Outcome)
    (url : string) (tr : list Event) :
  ∃ tr', (get_json_default http url tr).2 = tr ++ tr' ∧
    (1 ≤ count_gets tr' ≤ 3)%nat ∧ only_requests url tr'.
Proof.
  unfold get_json_default, get_json. change (Z.to_nat 3) with 3%nat.
  destruct (get_json_loop_outcome http 3 url None (float_of_ratio 1 2) tr)
    as (k & _ & [(-> & _ & Hrun) | [(Hlt & _ & body & _ & Hrun) | (_ & _ & e & He & _)]]);
    [| |by rewrite time_sleep_default in He]; rewrite Hrun; simpl snd.
  - exists (failed_attempts url None (float_of_ratio 1 2) 3). split; [done|].
    split; [rewrite count_gets_failed_attempts; lia|]. apply only_requests_failed_attempts.
  - exists (failed_attempts url None (float_of_ratio 1 2) k ++ [EvGet url None]).
    split; [done|].
    rewrite count_gets_app, count_gets_failed_attempts. simpl. split; [lia|].
    apply Forall_app. split; [apply only_requests_failed_attempts|].
    constructor; [by left | constructor].
Qed.

(** X2: whatever the network does, a call of [get_team_stats] or of
    [get_scheduled_events] makes at least one and at most three requests,
    all of them to its own URL and without parameters, and otherwise only
    pauses for half a second. *)
Theorem retrievers_requests (http : list Event → string → option pyval → Outcome)
    (tr : list Event) :
  (∀ team_id season_id, ∃ tr',
     (get_team_stats http team_id season_id tr).2 = tr ++ tr' ∧
     (1 ≤ count_gets tr' ≤ 3)%nat ∧
     only_requests (team_stats_url team_id season_id) tr') ∧
  (∀ date_str, ∃ tr',
     (get_scheduled_events http date_str tr).2 = tr ++ tr' ∧
     (1 ≤ count_gets tr' ≤ 3)%nat ∧
     only_requests (scheduled_events_url date_str) tr').
Proof.
  split.
  - intros team_id season_id. unfold get_team_stats. fold (team_stats_url team_id season_id).
    destruct (get_json_default_trace http (team_stats_url team_id season_id) tr)
      as (tr' & Htr & Hn & Hall).
    exists tr'. by destruct (get_json_default http _ tr).
  - intros date_str. unfold get_scheduled_events. fold (scheduled_events_url date_str).
    destruct (get_json_default_trace http (scheduled_events_url date_str) tr)
      as (tr' & Htr & Hn & Hall).
    exists tr'. by destruct (get_json_default http _ tr).
Qed.

(** X3: when the three requests for the statistics of a team all fail,
    [get_team_stats] returns [None] after the three requests and pauses,
    without raising. *)
Theorem get_team_stats_unreachable (http : list Event → string → option pyval → Outcome)
    (team_id season_id : Z) (tr : list Event) :
  (∀ i, (i < 3)%nat →
     attempt (http (tr ++ failed_attempts (team_stats_url team_id season_id) None
                             (float_of_ratio 1 2) i)
                (team_stats_url team_id season_id) None) = None) →
  get_team_stats http team_id season_id tr
  = (mret None, tr ++ failed_attempts (team_stats_url team_id season_id) None
                        (float_of_ratio 1 2) 3).
Proof.
  intros Hfail. unfold get_team_stats. fold (team_stats_url team_id season_id).
  unfold get_json_default, get_json.
  rewrite get_json_loop_all_fail; [done | | done].
  intros _. apply time_sleep_default.
Qed.

Lemma get_team_stats_unreachable_witness :
  get_team_stats http_down 7 2024 []
  = (mret None, [] ++ failed_attempts (team_stats_url 7 2024) None (float_of_ratio 1 2) 3).
Proof.
  apply (get_team_stats_unreachable http_down 7 2024 []).
  intros i _. reflexivity.
Defined.

(** X4: when the three requests for the schedule of a day all fail,
    [get_scheduled_events] returns the empty list after the three requests
    and pauses, without raising. *)
Theorem get_scheduled_events_unreachable
    (http : list Event → string → option pyval → Outcome)
    (date_str : string) (tr : list Event) :
  (∀ i, (i < 3)%nat →
     attempt (http (tr ++ failed_attempts (scheduled_events_url date_str) None
                             (float_of_ratio 1 2) i)
                (scheduled_events_url date_str) None) = None) →
  get_scheduled_events http date_str tr
  = (mret [], tr ++ failed_attempts (scheduled_events_url date_str) None
                      (float_of_ratio 1 2) 3).
Proof.
  intros Hfail. unfold get_scheduled_events. fold (scheduled_events_url date_str).
  unfold get_json_default, get_json.
  rewrite get_json_loop_all_fail; [done | | done].
  intros _. apply time_sleep_default.
Qed.

Lemma get_scheduled_events_unreachable_witness :
  get_scheduled_events http_down "2024-01-01" []
  = (mret [], [] ++ failed_attempts (scheduled_events_url "2024-01-01") None
                      (float_of_ratio 1 2) 3).
Proof.
  apply (get_scheduled_events_unreachable http_down "2024-01-01" []).
  intros i _. reflexivity.
Defined.

(** ** Schedule retriever, on well-shaped responses *)

Lemma lookup_Some_truthy (d : gmap string pyval) (key : string) (v : pyval) :
  d !! key = Some v → truthy (PDict d) = true.
Proof.
  intros Hk. simpl. destruct (size d) eqn:Hsize; [|done].
  apply map_size_empty_iff in Hsize. subst d. by rewrite lookup_empty in Hk.
Qed.

(** An entry of the expected shape raises nothing but [KeyError]. *)
Lemma match_info_of_event_shape_ok (ev : pyval) (e : exn) :
  entry_shape_ok ev → match_info_of_event ev = raise e → e = KeyError.
Proof.
  destruct ev as [| | | | | |d]; try done. simpl.
  unfold object_or_absent. intros Hshape.
  repeat (apply andb_prop_elim in Hshape as [Hshape ?]).
  unfold match_info_of_event, match_info_fields, py_get, py_subscript, raise.
  destruct (d !! "season") as [[]|]; try done;
    destruct (d !! "homeTeam") as [[]|]; try done;
    destruct (d !! "awayTeam") as [[]|]; try done;
    destruct (d !! "tournament") as [[]|]; try done;
    simpl; repeat case_match; simpl; try done; by intros [= <-].
Qed.

Lemma scheduled_events_loop_shape_ok (evs : list pyval) (acc : list (MatchInfo pyval pyval)) :
  Forall (λ ev, entry_shape_ok ev) evs →
  scheduled_events_loop evs acc = mret (acc ++ omap kept_entry evs).
Proof.
  intros Hall. revert acc. induction Hall as [|ev evs Hev _ IH]; intros acc; simpl.
  { by rewrite app_nil_r. }
  unfold kept_entry at 1.
  destruct (match_info_of_event ev) as [e|[m|]] eqn:Hparse.
  - rewrite (match_info_of_event_shape_ok ev e Hev Hparse). apply IH.
  - rewrite IH. by rewrite <- app_assoc.
  - apply IH.
Qed.

(** An entry of the expected shape that stands for a record is parsed into
    that record. *)
Lemma entry_record_parsed (ev : pyval) (m : MatchInfo pyval pyval) :
  entry_shape_ok ev → entry_record ev = Some m → match_info_of_event ev = mret (Some m).
Proof.
  destruct ev as [| | | | | |d]; try done. simpl. intros Hshape.
  repeat (apply andb_prop_elim in Hshape as [Hshape ?]).
  unfold entry_record. simpl.
  destruct (d !! "season") as [season|] eqn:Hseason; [|done]. simpl.
  destruct season as [| | | | | |season]; try done. simpl.
  destruct (season !! "id") as [sid|] eqn:Hsid; [|done]. simpl.
  destruct (d !! "id") as [eid|] eqn:Heid; [|done]. simpl.
  destruct (d !! "homeTeam") as [home|] eqn:Hhome; [|done]. simpl.
  destruct home as [| | | | | |home]; try done. simpl.
  destruct (home !! "id") as [hid|] eqn:Hhid; [|done]. simpl.
  destruct (home !! "name") as [hname|] eqn:Hhname; [|done]. simpl.
  destruct (d !! "awayTeam") as [away|] eqn:Haway; [|done]. simpl.
  destruct away as [| | | | | |away]; try done. simpl.
  destruct (away !! "id") as [aid|] eqn:Haid; [|done]. simpl.
  destruct (away !! "name") as [aname|] eqn:Haname; [|done]. simpl.
  intros Hrecord.
  unfold match_info_of_event, match_info_fields, py_get, py_subscript.
  rewrite Hseason, Heid, Hhome, Haway. simpl. rewrite Hsid, Hhid, Hhname, Haid, Haname.
  simpl. unfold object_or_absent in *.
  destruct (d !! "tournament") as [[| | | | | |t]|]; try done;
    simpl in *; rewrite ?lookup_empty; destruct sid; try done; by injection Hrecord as <-.
Qed.

(** On entries of the expected shape, the loop keeps exactly the entries
    that stand for a record. *)
Lemma kept_entry_record (ev : pyval) : entry_shape_ok ev → kept_entry ev = entry_record ev.
Proof.
  intros Hshape. destruct (entry_record ev) as [m|] eqn:Hrecord.
  - unfold kept_entry. by rewrite (entry_record_parsed ev m Hshape Hrecord).
  - unfold kept_entry.
    destruct (match_info_of_event ev) as [e|[m|]] eqn:Hparse; [done | | done].
    apply match_info_of_event_record in Hparse. congruence.
Qed.

Lemma omap_kept_entry_record (evs : list pyval) :
  Forall (λ ev, entry_shape_ok ev) evs → omap kept_entry evs = omap entry_record evs.
Proof.
  intros Hall. apply list_omap_ext, Forall_Forall2_diag.
  eapply Forall_impl; [done|]. intros ev. apply kept_entry_record.
Qed.

(** X5: when the response is an object whose [events] field is a list of
    entries of the expected shape (objects whose season, home team, away
    team and tournament are objects where present), [get_scheduled_events]
    does not raise: it returns, in the order of the response, the records of
    the entries that have a season with an [id] that is not [null], an [id],
    and home and away teams with [id] and [name], and passes over the
    others. *)
Theorem scheduled_events_well_shaped (d : gmap string pyval) (evs : list pyval) :
  d !! "events" = Some (PList evs) →
  Forall (λ ev, entry_shape_ok ev) evs →
  scheduled_events_of_json (PDict d) = mret (omap entry_record evs).
Proof.
  intros Hevents Hall. unfold scheduled_events_of_json.
  rewrite (lookup_Some_truthy d "events" _ Hevents). simpl negb. cbv iota.
  unfold py_contains. rewrite result_bind_inr, Hevents.
  rewrite bool_decide_eq_true_2 by eauto. simpl negb. cbv iota.
  unfold py_subscript. rewrite Hevents, result_bind_inr.
  unfold py_iter. rewrite result_bind_inr.
  rewrite (scheduled_events_loop_shape_ok evs []) by done.
  by rewrite (omap_kept_entry_record evs Hall).
Qed.

Lemma scheduled_events_well_shaped_witness :
  scheduled_events_of_json schedule_mixed
  = mret (omap entry_record [entry_full; entry_no_season; entry_no_away_name]) ∧
  omap entry_record [entry_full; entry_no_season; entry_no_away_name] = [record_full].
Proof.
  split; [|vm_compute; reflexivity].
  apply (scheduled_events_well_shaped
           {[ "events" := PList [entry_full; entry_no_season; entry_no_away_name] ]}).
  - vm_compute. reflexivity.
  - repeat constructor.
Defined.

(** X6: [get_scheduled_events] returns the empty list, and does not raise,
    when the response is absent or otherwise falsy ([None], an empty object,
    an empty list), and when it is an object without an [events] field. *)
Theorem scheduled_events_nothing_to_read (data : pyval) :
  (truthy data = false → scheduled_events_of_json data = mret []) ∧
  (∀ d, data = PDict d → d !! "events" = None → scheduled_events_of_json data = mret []).
Proof.
  unfold scheduled_events_of_json. split.
  - by intros ->.
  - intros d -> Hnone. destruct (truthy (PDict d)); [|done]. simpl negb. cbv iota.
    unfold py_contains. rewrite result_bind_inr, Hnone.
    rewrite bool_decide_eq_false_2 by (by intros [? ?]). done.
Qed.

Lemma scheduled_events_nothing_to_read_witness :
  scheduled_events_of_json PNone = mret [] ∧
  scheduled_events_of_json (PDict {[ "error" := PStr "not found" ]}) = mret [].
Proof.
  split.
  - apply (proj1 (scheduled_events_nothing_to_read PNone)). reflexivity.
  - apply (proj2 (scheduled_events_nothing_to_read (PDict {[ "error" := PStr "not found" ]}))
             {[ "error" := PStr "not found" ]}); [reflexivity|].
    vm_compute. reflexivity.
Defined.

(** X7: an entry that is an object with a season identifier, an [id],
    home and away teams carrying [id] and [name], and a tournament that is
    an object when it is present, gives a record with exactly these values;
    a missing [startTimestamp] becomes 0 and a missing tournament, or a
    tournament without [name], becomes ["Unknown"]. *)
Theorem match_info_of_complete_entry (d season home away : gmap string pyval)
    (sid eid hid hname aid aname : pyval) :
  d !! "season" = Some (PDict season) → season !! "id" = Some sid → sid ≠ PNone →
  d !! "id" = Some eid →
  d !! "homeTeam" = Some (PDict home) → home !! "id" = Some hid → home !! "name" = Some hname →
  d !! "awayTeam" = Some (PDict away) → away !! "id" = Some aid → away !! "name" = Some aname →
  object_or_absent d "tournament" →
  match_info_of_event (PDict d)
  = mret (Some (mkMatchInfo eid (default (PInt 0) (d !! "startTimestamp"))
                  hid hname aid aname
                  (match d !! "tournament" with
                   | Some (PDict t) => default (PStr "Unknown") (t !! "name")
                   | _ => PStr "Unknown"
                   end)
                  sid)).
Proof.
  intros Hseason Hsid Hne Heid Hhome Hhid Hhname Haway Haid Haname Htour.
  unfold match_info_of_event, match_info_fields, py_get, py_subscript.
  rewrite Hseason, Heid, Hhome, Haway. simpl. rewrite Hsid, Hhid, Hhname, Haid, Haname.
  simpl. unfold object_or_absent in Htour.
  destruct (d !! "tournament") as [[| | | | | |t]|]; try done;
    simpl; rewrite ?lookup_empty; by destruct sid.
Qed.

Lemma match_info_of_complete_entry_witness :
  match_info_of_event entry_full = mret (Some record_full).
Proof.
  unfold entry_full, team_object.
  rewrite (match_info_of_complete_entry _ {[ "id" := PInt 5 ]}
             (<["id" := PInt 10]> {[ "name" := PStr "A" ]})
             (<["id" := PInt 11]> {[ "name" := PStr "B" ]})
             (PInt 5) (PInt 1) (PInt 10) (PStr "A") (PInt 11) (PStr "B"));
    try (vm_compute; reflexivity); try (vm_compute; exact I).
  discriminate.
Defined.

Lemma scheduled_events_sound_witness :
  scheduled_events_of_json schedule_mixed = mret [record_full] ∧
  record_full ∈ [record_full] ∧
  ∃ ev, entry_record ev = Some record_full ∧
    ∃ season, json_field ev "season" = Some season ∧
              json_field season "id" = Some (match_season_id record_full).
Proof.
  assert (scheduled_events_of_json schedule_mixed = mret [record_full]) as Hrun
    by (vm_compute; reflexivity).
  assert (record_full ∈ [record_full]) as Hin by left.
  destruct (scheduled_events_sound _ _ _ Hrun Hin)
    as (_ & events & evs & ev & _ & _ & _ & Hrecord & Hseason & _).
  exact (conj Hrun (conj Hin (ex_intro _ ev (conj Hrecord Hseason)))).
Defined.

(** ** Team statistics retriever, on any response *)

Lemma first_truthy_truthy_or_zero (stats : gmap string pyval) (candidates : list string) :
  truthy (first_truthy stats candidates) = true ∨ first_truthy stats candidates = PInt 0.
Proof.
  induction candidates as [|c rest IH]; simpl; [by right|].
  destruct (stats !! c) as [v|]; [|done].
  destruct (truthy v) eqn:Hv; [by left | done].
Qed.

(** [get_team_stats] from the decoded response on, case by case. *)
Lemma team_stats_of_json_cases (team_id season_id : Z) (data : pyval) :
  team_stats_of_json team_id season_id data
  = match data with
    | PDict d =>
        if truthy data then
          match default (PDict ∅) (d !! "statistics"), default (PDict ∅) (d !! "team") with
          | PDict stats, PDict team =>
              Some (mkTeamStats (PInt team_id)
                      (default (PStr ("Team " +:+ pretty team_id)) (team !! "name"))
                      (PInt season_id)
                      (first_truthy stats goals_scored_fields)
                      (first_truthy stats matches_played_fields))
          | _, _ => None
          end
        else None
    | _ => None
    end.
Proof.
  unfold team_stats_of_json.
  destruct data as [| | | | | |d]; try (by destruct (truthy _)).
  destruct (truthy (PDict d)); [|done]. simpl negb. cbv iota.
  unfold team_stats_fields.
  change (py_get (PDict d) "statistics" (PDict ∅))
    with (mret (default (PDict ∅) (d !! "statistics")) : result pyval).
  change (py_get (PDict d) "team" (PDict ∅))
    with (mret (default (PDict ∅) (d !! "team")) : result pyval).
  rewrite result_bind_ret.
  destruct (default (PDict ∅) (d !! "statistics")) as [| | | | | |stats]; try done.
  rewrite !or_chain_first_truthy, !result_bind_ret.
  by destruct (default (PDict ∅) (d !! "team")) as [| | | | | |team].
Qed.

(** X9: [get_team_stats] returns statistics exactly when the response is a
    non-empty object whose [statistics] and [team] fields are objects where
    they are present; for every other response (a list, a number, [null]
    statistics, a team that is a string, ...) it returns [None]. *)
Theorem team_stats_present_iff (team_id season_id : Z) (data : pyval) :
  is_Some (team_stats_of_json team_id season_id data) ↔
  ∃ d, data = PDict d ∧ d ≠ ∅ ∧
       object_or_absent d "statistics" ∧ object_or_absent d "team".
Proof.
  rewrite team_stats_of_json_cases. unfold object_or_absent. split.
  - destruct data as [| | | | | |d]; try by intros [? ?].
    simpl. destruct (size d) eqn:Hsize; [by intros [? ?]|]. simpl. intros Hsome.
    exists d. split; [done|]. split.
    { intros ->. by rewrite map_size_empty in Hsize. }
    destruct (d !! "statistics") as [[]|], (d !! "team") as [[]|];
      simpl in *; try done; by destruct Hsome.
  - intros (d & -> & Hne & Hstats & Hteam). simpl.
    destruct (size d) eqn:Hsize; [by apply map_size_empty_iff in Hsize|]. simpl.
    destruct (d !! "statistics") as [[]|], (d !! "team") as [[]|]; simpl in *; done.
Qed.

(** X10: the statistics that [get_team_stats] returns carry the team and
    season identifiers it was called with; the name is the [name] of the
    response's team object, or ["Team <id>"] when there is none; goals
    scored and matches played are truthy values or the integer zero, so
    never [None], an empty string or a float zero. *)
Theorem team_stats_result_fields (tid sid : Z) (data : pyval)
    (ts : TeamStats pyval pyval) :
  team_stats_of_json tid sid data = Some ts →
  team_id ts = PInt tid ∧ season_id ts = PInt sid ∧
  (truthy (goals_scored ts) = true ∨ goals_scored ts = PInt 0) ∧
  (truthy (matches_played ts) = true ∨ matches_played ts = PInt 0) ∧
  ∃ d, data = PDict d ∧
    name ts = match d !! "team" with
              | Some (PDict team) =>
                  default (PStr ("Team " +:+ pretty tid)) (team !! "name")
              | _ => PStr ("Team " +:+ pretty tid)
              end.
Proof.
  rewrite team_stats_of_json_cases.
  destruct data as [| | | | | |d]; try done.
  destruct (truthy (PDict d)); [|done].
  destruct (default (PDict ∅) (d !! "statistics")) as [| | | | | |stats] eqn:Hstats;
    try done.
  destruct (default (PDict ∅) (d !! "team")) as [| | | | | |team] eqn:Hteam; try done.
  intros [= <-]. cbn [team_id season_id goals_scored matches_played name].
  split; [done|]. split; [done|].
  split; [exact (first_truthy_truthy_or_zero stats goals_scored_fields)|].
  split; [exact (first_truthy_truthy_or_zero stats matches_played_fields)|].
  exists d. split; [done|].
  destruct (d !! "team") as [[]|]; simpl in Hteam; try done.
  - by injection Hteam as ->.
  - injection Hteam as <-. by rewrite lookup_empty.
Qed.

Lemma team_stats_result_fields_witness :
  team_stats_of_json 1 2024 stats_alias_only
    = Some (mkTeamStats (PInt 1) (PStr "Team 1") (PInt 2024) (PInt 31) (PInt 4)) ∧
  (truthy (PInt 31) = true ∨ PInt 31 = PInt 0).
Proof.
  assert (team_stats_of_json 1 2024 stats_alias_only
            = Some (mkTeamStats (PInt 1) (PStr "Team 1") (PInt 2024) (PInt 31) (PInt 4)))
    as Hrun by (vm_compute; reflexivity).
  destruct (team_stats_result_fields _ _ _ _ Hrun) as (_ & _ & Hgs & _).
  exact (conj Hrun Hgs).
Defined.

(** ** Match enrichment engine: what is fetched, and when *)

Lemma fetched_keys_fetch_and_sleep (key : Z * Z) : fetched_keys (fetch_and_sleep key) = [key].
Proof. by destruct key. Qed.

Lemma match_keys_cons (m : MatchInfoT) (ms : list MatchInfoT) :
  match_keys (m :: ms) = key_home m :: key_away m :: match_keys ms.
Proof. reflexivity. Qed.

Lemma length_match_keys (ms : list MatchInfoT) :
  length (match_keys ms) = (2 * length ms)%nat.
Proof. induction ms as [|m ms IH]; [done|]. rewrite match_keys_cons. simpl. lia. Qed.

Section FetchProperties.
Variable reply : list Action → Z → Z → option TeamStatsT.

(** A cache miss appends the call and the pause, a hit nothing. *)
Lemma ensure_cached_actions key st :
  actions (ensure_cached reply key st)
  = actions st ++ match stats_cache st !! key with
                  | Some _ => []
                  | None => fetch_and_sleep key
                  end.
Proof.
  unfold ensure_cached. destruct (stats_cache st !! key); simpl; [by rewrite app_nil_r | done].
Qed.

Lemma ensure_cached_fetched key st k :
  k ∈ fetched_keys (actions (ensure_cached reply key st)) →
  k ∈ fetched_keys (actions st) ∨ k = key.
Proof.
  rewrite ensure_cached_actions, fetched_keys_app, elem_of_app.
  intros [? | Hnew]; [by left|]. right.
  destruct (stats_cache st !! key); [by apply elem_of_nil in Hnew|].
  rewrite fetched_keys_fetch_and_sleep in Hnew. by apply list_elem_of_singleton in Hnew.
Qed.


Lemma enrich_loop_fetched_subset ms st k :
  k ∈ fetched_keys (actions (enrich_loop reply ms st).2) →
  k ∈ fetched_keys (actions st) ∨ k ∈ match_keys ms.
Proof.
  revert st. induction ms as [|m ms IH]; intros st; [by left|].
  rewrite match_keys_cons. simpl.
  set (st1 := ensure_cached reply (home_team_id m, match_season_id m) st).
  set (st2 := ensure_cached reply (away_team_id m, match_season_id m) st1).
  assert (k ∈ fetched_keys (actions st2) →
          k ∈ fetched_keys (actions st) ∨ k ∈ key_home m :: key_away m :: match_keys ms)
    as Hst2.
  { intros [[Hk | ->]%ensure_cached_fetched | ->]%ensure_cached_fetched.
    - by left.
    - right. left.
    - right. right. left. }
  destruct (enrich m (stats_cache st2)) as [e|r]; [exact Hst2|].
  intros [Hk | Hk]%IH; [by apply Hst2|].
  right. by do 2 right.
Qed.

Lemma enrich_loop_cache_mono ms st k v :
  stats_cache st !! k = Some v → stats_cache (enrich_loop reply ms st).2 !! k = Some v.
Proof.
  apply (enrich_loop_invariant reply (λ st, stats_cache st !! k = Some v)).
  - intros key st'. apply ensure_cached_mono.
  - intros m st' r Hst' _. exact Hst'.
Qed.

Lemma enrich_loop_success_cached ms st k :
  (enrich_loop reply ms st).1 = mret () →
  k ∈ match_keys ms → is_Some (stats_cache (enrich_loop reply ms st).2 !! k).
Proof.
  revert st. induction ms as [|m ms IH]; intros st; [by intros _ ?%elem_of_nil|].
  rewrite match_keys_cons. simpl.
  set (st1 := ensure_cached reply (home_team_id m, match_season_id m) st).
  set (st2 := ensure_cached reply (away_team_id m, match_season_id m) st1).
  destruct (enrich m (stats_cache st2)) as [e|r]; [done|].
  intros Hok Hk.
  apply elem_of_cons in Hk as [-> | Hk]; [|apply elem_of_cons in Hk as [-> | Hk]].
  - destruct (ensure_cached_is_Some reply (home_team_id m, match_season_id m) st) as [v Hv].
    exists v. apply enrich_loop_cache_mono. simpl. by apply ensure_cached_mono.
  - destruct (ensure_cached_is_Some reply (away_team_id m, match_season_id m) st1)
      as [v Hv].
    exists v. by apply enrich_loop_cache_mono.
  - by apply IH.
Qed.
End FetchProperties.


(** X12: a run fetches statistics only for keys that the input matches look
    up (their home and away team with their season), hence at most twice as
    many keys as there are matches; a run that returns has fetched every one
    of these keys. *)
Theorem compute_fetches_match_keys (reply : list Action → Z → Z → option TeamStatsT)
    (ms : list MatchInfoT) :
  let run := compute_expected_goals_for_matches reply ms in
  (∀ k, k ∈ fetched_keys (actions run.2) → k ∈ match_keys ms) ∧
  (length (fetched_keys (actions run.2)) ≤ 2 * length ms)%nat ∧
  (∀ rs, run.1 = mret rs → ∀ k, k ∈ match_keys ms → k ∈ fetched_keys (actions run.2)).
Proof.
  intros run.
  assert (∀ k, k ∈ fetched_keys (actions run.2) → k ∈ match_keys ms) as Hsub.
  { intros k. subst run. unfold compute_expected_goals_for_matches, compute_from.
    pose proof (enrich_loop_fetched_subset reply ms Run_init k) as Hk.
    destruct (enrich_loop reply ms Run_init) as [res st]. simpl in *.
    intros [[]%elem_of_nil | ?]%Hk. done. }
  destruct (compute_records_calls reply ms) as [Hnodup Hcache]. fold run in Hnodup, Hcache.
  split_and!; [exact Hsub | |].
  - rewrite <- length_match_keys. apply submseteq_length.
    by apply NoDup_submseteq.
  - intros rs Hrs k Hk. apply elem_of_fetched_keys.
    subst run. revert Hrs Hcache.
    unfold compute_expected_goals_for_matches, compute_from.
    pose proof (enrich_loop_success_cached reply ms Run_init k) as Hcached.
    destruct (enrich_loop reply ms Run_init) as [[e|[]] st]; simpl in *; [done|].
    intros _ Hcache. destruct Hcached as [v Hv]; [done..|].
    apply Hcache in Hv as (i & Hi & _). eauto.
Qed.

(** ** Match enrichment engine: what the records say *)

Lemma goals_per_match_played {str : Type} (ts : TeamStats pyval str) (x : option float) :
  py_le_zero (matches_played ts) = mret false → goals_per_match ts = mret x → is_Some x.
Proof.
  intros Hmp. unfold goals_per_match. rewrite Hmp. simpl.
  destruct (py_truediv (goals_scored ts) (matches_played ts)); [done|].
  intros [= <-]. eauto.
Qed.

Lemma int_truediv_zero (b : Z) : 0 < b → int_truediv 0 b = mret (S754_zero false).
Proof. intros Hb. by destruct b. Qed.

(** X13: two records of one returned list that involve the same team in the
    same season, at home or away, carry the same statistics for it: those
    in the cache under that key. The answer of the first fetch stands for
    the whole run. *)
Theorem same_team_same_stats (reply : list Action → Z → Z → option TeamStatsT)
    (ms : list MatchInfoT) (rs : list MatchWithExpectedGoals) (st : Run)
    (r1 r2 : MatchWithExpectedGoals) (key : Z * Z) (s1 s2 : option TeamStatsT) :
  compute_expected_goals_for_matches reply ms = (mret rs, st) →
  r1 ∈ rs → r2 ∈ rs →
  carries r1 key s1 → carries r2 key s2 →
  s1 = s2 ∧ stats_cache st !! key = Some s1.
Proof.
  intros Hrun Hr1 Hr2 Hc1 Hc2.
  apply compute_consistent in Hrun as [-> Hall]. rewrite Forall_forall in Hall.
  destruct (Hall r1 Hr1) as (Hh1 & Ha1 & _), (Hall r2 Hr2) as (Hh2 & Ha2 & _).
  assert (stats_cache st !! key = Some s1) as Hs1
    by (destruct Hc1 as [[<- <-] | [<- <-]]; done).
  assert (stats_cache st !! key = Some s2) as Hs2
    by (destruct Hc2 as [[<- <-] | [<- <-]]; done).
  split; [congruence | done].
Qed.

Lemma same_team_same_stats_witness :
  scenario_run = (mret [enriched_AB; enriched_CD; enriched_CA], scenario_run.2) ∧
  carries enriched_AB (1, 2024) (Some stats_A) ∧
  carries enriched_CA (1, 2024) (Some stats_A) ∧
  stats_cache scenario_run.2 !! (1, 2024) = Some (Some stats_A).
Proof.
  assert (scenario_run = (mret [enriched_AB; enriched_CD; enriched_CA], scenario_run.2))
    as Hrun by (vm_compute; reflexivity).
  assert (enriched_AB ∈ [enriched_AB; enriched_CD; enriched_CA]) as Hin1 by left.
  assert (enriched_CA ∈ [enriched_AB; enriched_CD; enriched_CA]) as Hin2
    by (right; right; left).
  assert (carries enriched_AB (1, 2024) (Some stats_A)) as Hc1 by (left; split; reflexivity).
  assert (carries enriched_CA (1, 2024) (Some stats_A)) as Hc2 by (right; split; reflexivity).
  destruct (same_team_same_stats scenario_reply _ _ _ _ _ _ _ _ Hrun Hin1 Hin2 Hc1 Hc2)
    as [_ Hcache].
  exact (conj Hrun (conj Hc1 (conj Hc2 Hcache))).
Defined.

(** X14: in a returned list, a record has a joint value, and so is
    exported, exactly when both statistics are present and in both
    [matches_played] is a number that is not [<= 0]; for a [matches_played]
    that is an int this says [matches_played > 0]. *)
Theorem joint_defined_iff_both_played (reply : list Action → Z → Z → option TeamStatsT)
    (ms : list MatchInfoT) (rs : list MatchWithExpectedGoals) (st : Run)
    (r : MatchWithExpectedGoals) :
  compute_expected_goals_for_matches reply ms = (mret rs, st) →
  r ∈ rs →
  (is_Some (joint_expected_goals r) ↔
   (∃ hs, home_stats r = Some hs ∧ py_le_zero (matches_played hs) = mret false) ∧
   (∃ aws, away_stats r = Some aws ∧ py_le_zero (matches_played aws) = mret false)) ∧
  (∀ mp, py_le_zero (PInt mp) = mret false ↔ 0 < mp).
Proof.
  intros Hrun Hr.
  apply compute_consistent in Hrun as [-> Hall]. rewrite Forall_forall in Hall.
  destruct (Hall r Hr) as (_ & _ & Heh & Hea & ->). split; [split|].
  - intros Hj.
    destruct (exp_goals_home r) as [h|]; [|by destruct Hj].
    destruct (exp_goals_away r) as [a|]; [|by destruct Hj].
    apply expected_goals_Some in Heh as (hs & -> & Hh & _).
    apply expected_goals_Some in Hea as (aws & -> & Ha & _).
    split; eexists; split; done.
  - intros [(hs & Hhs & Hh) (aws & Haws & Ha)]. rewrite Hhs in Heh. rewrite Haws in Hea.
    destruct (goals_per_match_played hs _ Hh Heh) as [h ->].
    destruct (goals_per_match_played aws _ Ha Hea) as [a ->]. by eexists.
  - intros mp. unfold py_le_zero. simpl. split.
    + intros [= Hmp]. by apply Z.leb_gt in Hmp.
    + intros Hmp. apply Z.leb_gt in Hmp. by rewrite Hmp.
Qed.

Lemma joint_defined_iff_both_played_witness :
  scenario_run = (mret [enriched_AB; enriched_CD; enriched_CA], scenario_run.2) ∧
  enriched_CD ∈ [enriched_AB; enriched_CD; enriched_CA] ∧
  (is_Some (joint_expected_goals enriched_CD) ↔
   (∃ hs, home_stats enriched_CD = Some hs ∧ py_le_zero (matches_played hs) = mret false) ∧
   (∃ aws, away_stats enriched_CD = Some aws ∧ py_le_zero (matches_played aws) = mret false)).
Proof.
  assert (scenario_run = (mret [enriched_AB; enriched_CD; enriched_CA], scenario_run.2))
    as Hrun by (vm_compute; reflexivity).
  assert (enriched_CD ∈ [enriched_AB; enriched_CD; enriched_CA]) as Hin by (right; left).
  exact (conj Hrun (conj Hin
           (proj1 (joint_defined_iff_both_played scenario_reply _ _ _ _ Hrun Hin)))).
Defined.

Lemma compute_exp_goals_finite_witness :
  scenario_run = (mret [enriched_AB; enriched_CD; enriched_CA], scenario_run.2) ∧
  enriched_AB ∈ [enriched_AB; enriched_CD; enriched_CA] ∧
  goals_scored stats_A = PInt 10 ∧ matches_played stats_A = PInt 5 ∧
  float_finite (float_of_ratio 2 1) ∧
  (float_is_zero (float_of_ratio 2 1) = false → two_decimals (format_2f (float_of_ratio 2 1))).
Proof.
  assert (scenario_run = (mret [enriched_AB; enriched_CD; enriched_CA], scenario_run.2))
    as Hrun by (vm_compute; reflexivity).
  assert (enriched_AB ∈ [enriched_AB; enriched_CD; enriched_CA]) as Hin by left.
  exact (conj Hrun (conj Hin (conj eq_refl (conj eq_refl
           (compute_exp_goals_finite scenario_reply _ _ _ enriched_AB stats_A 10 5
              (float_of_ratio 2 1) Hrun Hin (or_introl (conj eq_refl eq_refl))
              eq_refl eq_refl))))).
Defined.

(** ** Exporters: what is written *)

Lemma json_object_fields (m : MatchWithExpectedGoals) :
  json_field (json_object m) "home_team" = Some (PStr (home_team_name (match_ m))) ∧
  json_field (json_object m) "away_team" = Some (PStr (away_team_name (match_ m))) ∧
  json_field (json_object m) "tournament" = Some (PStr (tournament_name (match_ m))) ∧
  json_field (json_object m) "exp_goals_home" = Some (float_or_none (exp_goals_home m)) ∧
  json_field (json_object m) "exp_goals_away" = Some (float_or_none (exp_goals_away m)) ∧
  json_field (json_object m) "joint_expected_goals"
    = Some (float_or_none (joint_expected_goals m)) ∧
  json_field (json_object m) "home_goals_scored" = Some (stat_json (home_stats m) goals_scored) ∧
  json_field (json_object m) "home_matches_played"
    = Some (stat_json (home_stats m) matches_played) ∧
  json_field (json_object m) "away_goals_scored" = Some (stat_json (away_stats m) goals_scored) ∧
  json_field (json_object m) "away_matches_played"
    = Some (stat_json (away_stats m) matches_played).
Proof. split_and!; reflexivity. Qed.

Lemma string_app_empty (s1 s2 : string) : s1 +:+ s2 = "" → s2 = "".
Proof. by destruct s1. Qed.

Lemma format_2f_nonempty (x : float) : format_2f x ≠ "".
Proof.
  destruct x as [[]|[]| |s m e]; try done. simpl.
  intros H. by do 2 apply string_app_empty in H.
Qed.

(** X16: a team whose statistics hold the int zero as goals and an int as
    matches, and that has a per-team value, has the value 0.0: in a returned
    record that is exported, its CSV cell is empty although the value is
    defined, while the JSON object carries the number 0.0. *)
Theorem zero_goals_blank_in_csv (reply : list Action → Z → Z → option TeamStatsT)
    (ms : list MatchInfoT) (rs : list MatchWithExpectedGoals) (st : Run)
    (r : MatchWithExpectedGoals) (j : float) :
  compute_expected_goals_for_matches reply ms = (mret rs, st) →
  r ∈ rs →
  joint_expected_goals r = Some j →
  (∀ hs mp, home_stats r = Some hs →
     goals_scored hs = PInt 0 → matches_played hs = PInt mp →
     0 < mp ∧
     exp_goals_home r = Some (S754_zero false) ∧
     csv_row r j !! 3%nat = Some (PStr "") ∧
     json_field (json_object r) "exp_goals_home" = Some (PFloat (S754_zero false))) ∧
  (∀ aws mp, away_stats r = Some aws →
     goals_scored aws = PInt 0 → matches_played aws = PInt mp →
     0 < mp ∧
     exp_goals_away r = Some (S754_zero false) ∧
     csv_row r j !! 4%nat = Some (PStr "") ∧
     json_field (json_object r) "exp_goals_away" = Some (PFloat (S754_zero false))).
Proof.
  intros Hrun Hr Hj.
  apply compute_consistent in Hrun as [-> Hall]. rewrite Forall_forall in Hall.
  destruct (Hall r Hr) as (_ & _ & Heh & Hea & Hjoint). rewrite Hj in Hjoint.
  destruct (exp_goals_home r) as [h|] eqn:Hh; [|done].
  destruct (exp_goals_away r) as [a|] eqn:Ha; [|done].
  pose proof (json_object_fields r) as (_ & _ & _ & Hjh & Hja & _).
  split.
  - intros hs mp Hhs Hzero Hmp. rewrite Hhs in Heh.
    apply expected_goals_Some in Heh as (hs' & [= <-] & Hle & Hdiv).
    rewrite Hmp in Hle. injection Hle as Hle. apply Z.leb_gt in Hle.
    rewrite Hzero, Hmp in Hdiv.
    change (py_truediv (PInt 0) (PInt mp)) with (int_truediv 0 mp) in Hdiv.
    rewrite int_truediv_zero in Hdiv by done. injection Hdiv as <-.
    split; [done|]. split; [done|]. split; [by simpl; rewrite Hh|]. by rewrite Hjh, Hh.
  - intros aws mp Haws Hzero Hmp. rewrite Haws in Hea.
    apply expected_goals_Some in Hea as (aws' & [= <-] & Hle & Hdiv).
    rewrite Hmp in Hle. injection Hle as Hle. apply Z.leb_gt in Hle.
    rewrite Hzero, Hmp in Hdiv.
    change (py_truediv (PInt 0) (PInt mp)) with (int_truediv 0 mp) in Hdiv.
    rewrite int_truediv_zero in Hdiv by done. injection Hdiv as <-.
    split; [done|]. split; [done|]. split; [by simpl; rewrite Ha|]. by rewrite Hja, Ha.
Qed.

Lemma zero_goals_blank_in_csv_witness :
  scenario_run = (mret [enriched_AB; enriched_CD; enriched_CA], scenario_run.2) ∧
  enriched_CA ∈ [enriched_AB; enriched_CD; enriched_CA] ∧
  joint_expected_goals enriched_CA = Some (float_of_ratio 2 1) ∧
  home_stats enriched_CA = Some stats_C ∧
  goals_scored stats_C = PInt 0 ∧ matches_played stats_C = PInt 6 ∧
  csv_row enriched_CA (float_of_ratio 2 1) !! 3%nat = Some (PStr "") ∧
  json_field (json_object enriched_CA) "exp_goals_home" = Some (PFloat (S754_zero false)).
Proof.
  assert (scenario_run = (mret [enriched_AB; enriched_CD; enriched_CA], scenario_run.2))
    as Hrun by (vm_compute; reflexivity).
  assert (enriched_CA ∈ [enriched_AB; enriched_CD; enriched_CA]) as Hin
    by (right; right; left).
  assert (joint_expected_goals enriched_CA = Some (float_of_ratio 2 1)) as Hj
    by reflexivity.
  destruct (zero_goals_blank_in_csv scenario_reply _ _ _ _ _ Hrun Hin Hj) as [Hhome _].
  destruct (Hhome stats_C 6 eq_refl eq_refl eq_refl) as (_ & _ & Hcsv & Hjson).
  exact (conj Hrun (conj Hin (conj Hj (conj eq_refl (conj eq_refl (conj eq_refl
           (conj Hcsv Hjson))))))).
Defined.

(** X17: the CSV table is rectangular: the header and every row written
    have ten cells. *)
Theorem csv_rows_have_ten_cells (ms : list MatchWithExpectedGoals) (date_str : string)
    (row : list pyval) :
  row ∈ (export_to_csv ms date_str).2 → length row = 10%nat.
Proof.
  simpl. intros [-> | Hrow]%elem_of_cons; [done|].
  by apply elem_of_csv_rows in Hrow as (m & j & _ & _ & ->).
Qed.

Lemma csv_rows_have_ten_cells_witness :
  csv_row enriched_AB (float_of_ratio 4 1)
    ∈ (export_to_csv [enriched_AB; enriched_CD; enriched_CA] "2024-01-01").2 ∧
  length (csv_row enriched_AB (float_of_ratio 4 1)) = 10%nat.
Proof.
  assert (csv_row enriched_AB (float_of_ratio 4 1)
            ∈ (export_to_csv [enriched_AB; enriched_CD; enriched_CA] "2024-01-01").2) as Hin
    by (simpl; right; left).
  exact (conj Hin (csv_rows_have_ten_cells _ _ _ Hin)).
Defined.

(** X18: every object of the JSON output carries the joint value as a
    number, never as [null]; each per-team value as the number it is, zero
    included, or as [null] when it is undefined; and the goals and matches
    of a team as the values that its statistics hold, or as [null] when its
    statistics are missing. *)
Theorem json_objects_fields (ms : list MatchWithExpectedGoals) (date_str : string)
    (obj : pyval) :
  obj ∈ (export_to_json ms date_str).2 →
  ∃ m j, m ∈ ms ∧ joint_expected_goals m = Some j ∧
    json_field obj "joint_expected_goals" = Some (PFloat j) ∧
    json_field obj "exp_goals_home"
      = Some (match exp_goals_home m with Some v => PFloat v | None => PNone end) ∧
    json_field obj "exp_goals_away"
      = Some (match exp_goals_away m with Some v => PFloat v | None => PNone end) ∧
    json_field obj "home_goals_scored"
      = Some (match home_stats m with Some s => goals_scored s | None => PNone end) ∧
    json_field obj "home_matches_played"
      = Some (match home_stats m with Some s => matches_played s | None => PNone end) ∧
    json_field obj "away_goals_scored"
      = Some (match away_stats m with Some s => goals_scored s | None => PNone end) ∧
    json_field obj "away_matches_played"
      = Some (match away_stats m with Some s => matches_played s | None => PNone end).
Proof.
  simpl. intros (m & Hm & [j Hj] & ->)%elem_of_json_output.
  pose proof (json_object_fields m) as (_ & _ & _ & Hh & Ha & Hjoint & Hhg & Hhm & Hag & Ham).
  exists m, j. rewrite Hj in Hjoint.
  exact (conj Hm (conj Hj (conj Hjoint (conj Hh (conj Ha (conj Hhg (conj Hhm
           (conj Hag Ham)))))))).
Qed.

Lemma json_objects_fields_witness :
  json_object enriched_CA
    ∈ (export_to_json [enriched_AB; enriched_CD; enriched_CA] "2024-01-01").2 ∧
  ∃ m j, m ∈ [enriched_AB; enriched_CD; enriched_CA] ∧ joint_expected_goals m = Some j ∧
    json_field (json_object enriched_CA) "joint_expected_goals" = Some (PFloat j).
Proof.
  assert (json_object enriched_CA
            ∈ (export_to_json [enriched_AB; enriched_CD; enriched_CA] "2024-01-01").2) as Hin
    by (simpl; right; left).
  destruct (json_objects_fields _ _ _ Hin) as (m & j & Hm & Hj & Hjoint & _).
  exact (conj Hin (ex_intro _ m (ex_intro _ j (conj Hm (conj Hj Hjoint))))).
Defined.

(** X19: an empty expected-goals cell in a CSV row stands for a value that
    is undefined or equal to zero, and for nothing else: the format of a
    float is never the empty string. *)
Theorem csv_empty_cell_iff (m : MatchWithExpectedGoals) (j : float) :
  (csv_row m j !! 3%nat = Some (PStr "") ↔
   exp_goals_home m = None ∨ ∃ v, exp_goals_home m = Some v ∧ float_is_zero v = true) ∧
  (csv_row m j !! 4%nat = Some (PStr "") ↔
   exp_goals_away m = None ∨ ∃ v, exp_goals_away m = Some v ∧ float_is_zero v = true).
Proof.
  assert (∀ x, format_if_truthy x = "" ↔
               x = None ∨ ∃ v, x = Some v ∧ float_is_zero v = true) as Hcell.
  { intros [v|]; simpl; [|by split; [left|]].
    rewrite float_truthy_is_zero. destruct (float_is_zero v) eqn:Hz; simpl.
    - split; [right; eauto | done].
    - split; [by intros ?%format_2f_nonempty|].
      intros [? | (v' & [= <-] & Hz')]; [done | congruence]. }
  split; simpl; rewrite <- Hcell; (split; [by intros [= ->] | by intros ->]).
Qed.

(** ** Match enrichment engine: a longer schedule *)

Section LongerSchedule.
Variable reply : list Action → Z → Z → option TeamStatsT.

Lemma enrich_loop_app ms1 ms2 st :
  enrich_loop reply (ms1 ++ ms2) st
  = match enrich_loop reply ms1 st with
    | (inr _, st') => enrich_loop reply ms2 st'
    | (inl e, st') => (inl e, st')
    end.
Proof.
  revert st. induction ms1 as [|m ms1 IH]; intros st; [done|]. simpl.
  destruct (enrich m _) as [e|r]; [done|]. apply IH.
Qed.

Lemma enrich_loop_grows ms st :
  results st `prefix_of` results (enrich_loop reply ms st).2 ∧
  actions st `prefix_of` actions (enrich_loop reply ms st).2.
Proof.
  apply (enrich_loop_invariant reply
           (λ st', results st `prefix_of` results st' ∧ actions st `prefix_of` actions st')).
  - intros key st' [Hres Hact]. rewrite ensure_cached_results, ensure_cached_actions.
    split; [done|]. etrans; [done|]. by apply prefix_app_r.
  - intros m st' r [Hres Hact] _. simpl. split; [|done].
    etrans; [done|]. by apply prefix_app_r.
  - done.
Qed.
End LongerSchedule.

(** X20: matches added at the end of the input change nothing before them:
    when the run on [ms1 ++ ms2] returns, the run on [ms1] alone returns
    too, its records are the first [length ms1] records of the longer run,
    and its actions are the first actions of the longer run. *)
Theorem compute_prefix_stable (reply : list Action → Z → Z → option TeamStatsT)
    (ms1 ms2 : list MatchInfoT) (rs : list MatchWithExpectedGoals) (st : Run) :
  compute_expected_goals_for_matches reply (ms1 ++ ms2) = (mret rs, st) →
  ∃ rs1 st1,
    compute_expected_goals_for_matches reply ms1 = (mret rs1, st1) ∧
    rs1 = take (length ms1) rs ∧
    actions st1 `prefix_of` actions st.
Proof.
  unfold compute_expected_goals_for_matches, compute_from.
  rewrite enrich_loop_app.
  pose proof (enrich_loop_outcome reply ms1 Run_init) as Hout.
  destruct (enrich_loop reply ms1 Run_init) as [[e|[]] st1]; [done|].
  destruct Hout as [(e & [=] & _) | [_ Hlen]].
  pose proof (enrich_loop_grows reply ms2 st1) as [[new Hres] Hact].
  destruct (enrich_loop reply ms2 st1) as [[e|[]] st2]; [done|]. simpl in *.
  intros [= <- <-]. exists (results st1), st1. split; [done|]. split; [|done].
  apply (f_equal length) in Hlen. rewrite length_fmap in Hlen.
  by rewrite Hres, <- Hlen, take_app_length.
Qed.

Lemma compute_prefix_stable_witness :
  compute_expected_goals_for_matches scenario_reply ([match_AB] ++ [match_CD; match_CA])
    = (mret [enriched_AB; enriched_CD; enriched_CA], scenario_run.2) ∧
  ∃ rs1 st1,
    compute_expected_goals_for_matches scenario_reply [match_AB] = (mret rs1, st1) ∧
    rs1 = take (length [match_AB]) [enriched_AB; enriched_CD; enriched_CA] ∧
    actions st1 `prefix_of` actions scenario_run.2.
Proof.
  assert (compute_expected_goals_for_matches scenario_reply ([match_AB] ++ [match_CD; match_CA])
            = (mret [enriched_AB; enriched_CD; enriched_CA], scenario_run.2)) as Hrun
    by (vm_compute; reflexivity).
  exact (conj Hrun (compute_prefix_stable scenario_reply _ _ _ _ Hrun)).
Defined.

(** ** Goals per match: the sign *)

Lemma binary_round_aux_sign (sx : bool) (mx ex : Z) (lx : location) :
  match binary_round_aux prec emax sx mx ex lx with
  | S754_zero s | S754_finite s _ _ | S754_infinity s => s = sx
  | S754_nan => True
  end.
Proof.
  unfold binary_round_aux.
  destruct (shr_fexp prec emax mx ex lx) as [mrs' e'].
  destruct (shr_fexp prec emax _ e' loc_Exact) as [mrs'' e''].
  destruct (shr_m mrs'') as [|p|p]; [done | | done].
  by destruct (e'' <=? emax - prec).
Qed.

Lemma int_truediv_nonnegative (a b : Z) (q : float) :
  0 ≤ a → 0 < b → int_truediv a b = mret q → float_nonnegative q.
Proof.
  intros Ha Hb. unfold int_truediv, mret, result_ret, raise.
  destruct b as [|pb|pb]; [lia | | lia].
  destruct a as [|pa|pa]; [simpl; intros [= Hq]; by rewrite <- Hq | | lia].
  cbv zeta.
  change (Z.pos pa <? 0) with false. change (Z.pos pb <? 0) with false.
  change (Z.to_pos (Z.abs (Z.pos pa))) with pa.
  change (Z.to_pos (Z.abs (Z.pos pb))) with pb.
  pose proof (SFdiv_finite_not_nan false false pa pb 0 0) as Hnan.
  assert (match SFdiv prec emax (S754_finite false pa 0) (S754_finite false pb 0) with
          | S754_zero s | S754_finite s _ _ | S754_infinity s => s = false
          | S754_nan => True
          end) as Hsign.
  { simpl. destruct (SFdiv_core_binary prec emax (Z.pos pa) 0 (Z.pos pb) 0) as [[mz ez] lz].
    apply binary_round_aux_sign. }
  destruct (SFdiv prec emax (S754_finite false pa 0) (S754_finite false pb 0));
    try done; subst; intros [= Hq]; by rewrite <- Hq.
Qed.

(** X21: a team whose goals and matches are ints and whose goal count is
    not negative never gets a negative goals-per-match value: the value,
    when there is one, is a positive number or the positive zero. *)
Theorem goals_per_match_nonnegative {str : Type} (ts : TeamStats pyval str)
    (gs mp : Z) (v : float) :
  goals_scored ts = PInt gs → matches_played ts = PInt mp →
  0 ≤ gs →
  goals_per_match ts = mret (Some v) →
  float_nonnegative v ∧ float_finite v.
Proof.
  intros Hgs Hmp Hpos [Hle Hdiv]%goals_per_match_Some.
  rewrite Hmp in Hle. injection Hle as Hle. apply Z.leb_gt in Hle.
  rewrite Hgs, Hmp in Hdiv.
  change (py_truediv (PInt gs) (PInt mp)) with (int_truediv gs mp) in Hdiv.
  split; [by apply (int_truediv_nonnegative _ _ _ Hpos Hle) | by apply int_truediv_finite in Hdiv].
Qed.

Lemma goals_per_match_nonnegative_witness :
  goals_scored stats_A = PInt 10 ∧ matches_played stats_A = PInt 5 ∧
  goals_per_match stats_A = mret (Some (float_of_ratio 2 1)) ∧
  float_nonnegative (float_of_ratio 2 1) ∧ float_finite (float_of_ratio 2 1).
Proof.
  assert (goals_per_match stats_A = mret (Some (float_of_ratio 2 1))) as Hrun
    by (vm_compute; reflexivity).
  exact (conj eq_refl (conj eq_refl (conj Hrun
           (goals_per_match_nonnegative stats_A 10 5 _ eq_refl eq_refl ltac:(lia) Hrun)))).
Defined.

(** ** Schedule retriever: an entry that is not an object *)

Lemma scheduled_events_loop_raises (evs1 evs2 : list pyval) (ev : pyval)
    (acc : list (MatchInfo pyval pyval)) (e : exn) :
  Forall (λ ev, entry_shape_ok ev) evs1 →
  match_info_of_event ev = raise e → e ≠ KeyError →
  scheduled_events_loop (evs1 ++ ev :: evs2) acc = raise e.
Proof.
  intros Hall Hev Hne. revert acc.
  induction Hall as [|ev1 evs1 Hev1 _ IH]; intros acc; simpl.
  - rewrite Hev. by destruct e.
  - destruct (match_info_of_event ev1) as [e1|[m|]] eqn:Hparse; [|apply IH..].
    rewrite (match_info_of_event_shape_ok ev1 e1 Hev1 Hparse). apply IH.
Qed.

(** X22: one entry that is not an object (a number, a string, [null], a
    list) makes [get_scheduled_events] raise [AttributeError], even when all
    entries before it are of the expected shape: the records built from
    them are not returned. *)
Theorem scheduled_events_stray_entry (d : gmap string pyval) (evs1 evs2 : list pyval)
    (ev : pyval) :
  d !! "events" = Some (PList (evs1 ++ ev :: evs2)) →
  Forall (λ ev, entry_shape_ok ev) evs1 →
  (∀ o, ev ≠ PDict o) →
  scheduled_events_of_json (PDict d) = raise AttributeError.
Proof.
  intros Hevents Hall Hev. unfold scheduled_events_of_json.
  rewrite (lookup_Some_truthy d "events" _ Hevents). simpl negb. cbv iota.
  unfold py_contains. rewrite result_bind_inr, Hevents.
  rewrite bool_decide_eq_true_2 by eauto. simpl negb. cbv iota.
  unfold py_subscript. rewrite Hevents, result_bind_inr.
  unfold py_iter. rewrite result_bind_inr.
  apply scheduled_events_loop_raises; [done | | done].
  destruct ev; try done. by destruct (Hev d0).
Qed.

Lemma scheduled_events_stray_entry_witness :
  scheduled_events_of_json schedule_with_stray_number = raise AttributeError.
Proof.
  apply (scheduled_events_stray_entry
           {[ "events" := PList [entry_full; PInt 7; entry_full] ]}
           [entry_full] [entry_full] (PInt 7)).
  - vm_compute. reflexivity.
  - repeat constructor.
  - discriminate.
Defined.

(** ** The retrievers, when the first request is answered *)

(** X23: when the first request is answered with status 200 and a body that
    decodes, each retriever makes that single request, does not pause, and
    returns what its parser makes of the body. *)
Theorem retrievers_first_answer (http : list Event → string → option pyval → Outcome)
    (tr : list Event) (data : pyval) :
  (∀ team_id season_id,
     http tr (team_stats_url team_id season_id) None = Response 200 (Some data) →
     get_team_stats http team_id season_id tr
     = (mret (team_stats_of_json team_id season_id data),
        tr ++ [EvGet (team_stats_url team_id season_id) None])) ∧
  (∀ date_str,
     http tr (scheduled_events_url date_str) None = Response 200 (Some data) →
     get_scheduled_events http date_str tr
     = (scheduled_events_of_json data,
        tr ++ [EvGet (scheduled_events_url date_str) None])).
Proof.
  split.
  - intros team_id season_id Hfirst. unfold get_team_stats.
    fold (team_stats_url team_id season_id). unfold get_json_default, get_json.
    rewrite (get_json_loop_first_success http _ 0 _ _ _ tr data);
      [done | simpl; lia | lia | lia |].
    simpl. rewrite app_nil_r. by apply attempt_Some.
  - intros date_str Hfirst. unfold get_scheduled_events.
    fold (scheduled_events_url date_str). unfold get_json_default, get_json.
    rewrite (get_json_loop_first_success http _ 0 _ _ _ tr data);
      [done | simpl; lia | lia | lia |].
    simpl. rewrite app_nil_r. by apply attempt_Some.
Qed.

Lemma retrievers_first_answer_witness :
  get_team_stats http_alias 1 2024 []
  = (mret (team_stats_of_json 1 2024 stats_alias_only),
     [] ++ [EvGet (team_stats_url 1 2024) None]).
Proof.
  apply (proj1 (retrievers_first_answer http_alias [] stats_alias_only) 1 2024).
  reflexivity.
Defined.
